(** * Orchestrator backend and replay front end of autonomous-ai-agent

    A shallow embedding of the FastAPI orchestrator (validate_task,
    plan_task, execute_task, submit_task, get_task_status), of the
    front end's handleApiError and of the TaskReplay component's local
    animation, with the properties the specification states about them.

    Conventions of the embedding
    - Python [str] values are [string]s whose characters are the code
      points below 256; [str.lower] is modelled exactly on that range.
    - Python floats that hold a progress value are modelled by exact
      rationals in lowest terms.  The only float operation of the code is
      [completed / total] on small non-negative integers; correctly
      rounded division is monotone in its numerator and [n / n] is exactly
      [1.0], so every order or equality fact proved here on the rationals
      is also a fact of the floats.
    - Redis is a finite map from keys to a value with an optional expiry
      instant, plus a flag telling whether the server is reachable;
      [json.dumps] followed by [json.loads] is the identity on the values
      the program stores, so the map holds the structured value.
    - [uuid.uuid4] draws from an id source carried by the world. *)

From Stdlib Require Import QArith Qreduction Qround Lqa Ascii String Sorted.
From stdpp Require Import gmap strings pretty list fin_maps.

Local Open Scope Z_scope.

(* ===================================================================== *)
(** ** Strings: [str.lower] and the [in] operator *)
(* ===================================================================== *)

(** [str.lower] on one code point below 256: the ASCII capitals and the
    Latin-1 capitals (192..222 without the multiplication sign 215) move
    up by 32, everything else is unchanged. *)
Definition lower_char (c : ascii) : ascii :=
  let n := N_of_ascii c in
  if ((65 <=? n) && (n <=? 90))%N
     || ((192 <=? n) && (n <=? 222) && negb (n =? 215))%N
  then ascii_of_N (n + 32)
  else c.

Fixpoint lower (s : string) : string :=
  match s with
  | EmptyString => EmptyString
  | String c s' => String (lower_char c) (lower s')
  end.

(** [s.startswith(p)] *)
Fixpoint starts_with (p s : string) : bool :=
  match p, s with
  | EmptyString, _ => true
  | String _ _, EmptyString => false
  | String a p', String b s' => if ascii_dec a b then starts_with p' s' else false
  end.

(** [kw in s] on Python strings: [kw] occurs as a contiguous substring. *)
Fixpoint contains (kw s : string) : bool :=
  starts_with kw s ||
  match s with
  | EmptyString => false
  | String _ s' => contains kw s'
  end.

(** The declarative reading of [kw in s]. *)
Definition occurs_in (kw s : string) : Prop :=
  exists a b : string, s = a +:+ kw +:+ b.

(* ===================================================================== *)
(** ** JSON values and the pydantic models *)
(* ===================================================================== *)

#[warnings="-register-all"]
Inductive JVal : Type :=
| JNull
| JStr (s : string)
| JNum (q : Q)
| JArr (l : list JVal).

(** A JSON object / Python [dict] with string keys, in insertion order. *)
Definition JDict : Type := list (string * JVal).

Fixpoint dict_get (k : string) (d : JDict) : option JVal :=
  match d with
  | [] => None
  | (k', v) :: d' => if String.eqb k k' then Some v else dict_get k d'
  end.

(** Task states *)
Definition PENDING : string := "pending".
Definition IN_PROGRESS : string := "in_progress".
Definition COMPLETED : string := "completed".
Definition FAILED : string := "failed".

(** Task types *)
Definition WEB_RESEARCH : string := "web_research".
Definition CODE_GENERATION : string := "code_generation".
Definition DATA_ANALYSIS : string := "data_analysis".
Definition CONTENT_CREATION : string := "content_creation".

(** class TaskRequest(BaseModel) *)
Record TaskRequest : Type := mkTaskRequest {
  task : string;
  context : JDict;
  priority : Z;
  agent_type : option string
}.

(** class Subtask(BaseModel) *)
Record Subtask : Type := mkSubtask {
  id : string;
  type : string;
  status : string;
  result : option string;
  error : option string;
  progress : Q
}.

(** [Subtask(id=..., type=..., status=...)]: the other fields take their
    declared defaults. *)
Definition new_Subtask (i ty st : string) : Subtask :=
  mkSubtask i ty st None None 0.

(** class TaskResponse(BaseModel); [subtasks] is declared [List[dict]]. *)
Record TaskResponse : Type := mkTaskResponse {
  task_id : string;
  r_status : string;
  r_result : option string;
  r_error : option string;
  r_progress : Q;
  r_subtasks : list JDict
}.

(** The task object inside [execute_task] after
    [task.subtasks = [Subtask(st...) for st in task.subtasks]]: the same
    fields with the sub-tasks as model objects. *)
Record Task : Type := mkTask {
  t_task_id : string;
  t_status : string;
  t_result : option string;
  t_error : option string;
  t_progress : Q;
  t_subtasks : list Subtask
}.

Definition opt_str (o : option string) : JVal :=
  match o with
  | Some s => JStr s
  | None => JNull
  end.

(** [st.dict()] *)
Definition Subtask_dict (s : Subtask) : JDict :=
  [ ("id", JStr (id s)); ("type", JStr (type s)); ("status", JStr (status s));
    ("result", opt_str (result s)); ("error", opt_str (error s));
    ("progress", JNum (progress s)) ].

(** A required [str] field of a pydantic model. *)
Definition required_str (k : string) (d : JDict) : option string :=
  match dict_get k d with
  | Some (JStr s) => Some s
  | _ => None
  end.

(** An [Optional[str] = None] field: absent or null gives [None]. *)
Definition optional_str (k : string) (d : JDict) : option (option string) :=
  match dict_get k d with
  | None | Some JNull => Some None
  | Some (JStr s) => Some (Some s)
  | Some _ => None
  end.

(** A [float = 0.0] field. *)
Definition float_default0 (k : string) (d : JDict) : option Q :=
  match dict_get k d with
  | None => Some 0%Q
  | Some (JNum q) => Some q
  | Some _ => None
  end.

(** [Subtask(st...)], the call with the dict's entries as keyword
    arguments: the declared fields are validated, keys that the
    model does not declare are ignored (pydantic's default), and [None]
    stands for the ValidationError raised otherwise. *)
Definition Subtask_of_dict (d : JDict) : option Subtask :=
  match required_str "id" d, required_str "type" d, required_str "status" d,
        optional_str "result" d, optional_str "error" d,
        float_default0 "progress" d with
  | Some i, Some ty, Some st, Some r, Some e, Some p => Some (mkSubtask i ty st r e p)
  | _, _, _, _, _, _ => None
  end.

(** The list comprehension of [Subtask(st...)] over [l]. *)
Fixpoint Subtasks_of_dicts (l : list JDict) : option (list Subtask) :=
  match l with
  | [] => Some []
  | d :: l' =>
      match Subtask_of_dict d, Subtasks_of_dicts l' with
      | Some s, Some ss => Some (s :: ss)
      | _, _ => None
      end
  end.

(** [task.dict()] on the task object of [execute_task]. *)
Definition Task_dict (t : Task) : TaskResponse :=
  mkTaskResponse (t_task_id t) (t_status t) (t_result t) (t_error t)
                 (t_progress t) (map Subtask_dict (t_subtasks t)).

(* ===================================================================== *)
(** ** The world the server runs in, and its effects *)
(* ===================================================================== *)

(** The exceptions that the modelled code raises or catches.  All of them
    are subclasses of Python's [Exception]. *)
Inductive Exn : Type :=
| HTTPException (status_code : Z) (detail : string)
| ConnectionError (msg : string)
| ValidationError (msg : string)
| JSONDecodeError (msg : string).

Definition Z_to_string (z : Z) : string := pretty z.

(** [str(e)]: Starlette prints an HTTPException as its status code, a
    colon and its detail; the others print their message. *)
Definition Exn_str (e : Exn) : string :=
  match e with
  | HTTPException c d => Z_to_string c +:+ ": " +:+ d
  | ConnectionError m => m
  | ValidationError m => m
  | JSONDecodeError m => m
  end.

Inductive Res (A : Type) : Type :=
| Ok (a : A)
| Raise (e : Exn).
Arguments Ok {A} a.
Arguments Raise {A} e.

(** What an observer of one run can see, in order. *)
Inductive Event : Type :=
| EvSleep (t : Task)
    (** the coroutine is suspended in [await asyncio.sleep(1)]; [t] is the
        task object it holds at that instant *)
| EvSet (key : string) (v : TaskResponse) (ex : option Z)
    (** [redis_client.set(key, json.dumps(v), ex=...)] succeeded *).

Record World : Type := mkWorld {
  redis_up : bool;                                   (* server reachable *)
  redis_db : gmap string (TaskResponse * option Z);  (* value, expiry instant *)
  clock : Z;                                         (* seconds *)
  uuid_src : nat -> string;                          (* source of uuid4 *)
  uuid_next : nat;
  task_queue : list string;                          (* orchestrator.task_queue *)
  spawned : list string   (* execute_task coroutines created, not yet run *)
}.

(** Computations: state passing over [World], a result or a raised
    exception, and the events emitted. *)
Definition M (A : Type) : Type := World -> Res A * World * list Event.

Definition ret {A} (a : A) : M A := fun w => (Ok a, w, []).

Definition raise {A} (e : Exn) : M A := fun w => (Raise e, w, []).

Definition bind {A B} (m : M A) (k : A -> M B) : M B :=
  fun w =>
    match m w with
    | (Ok a, w1, ev1) =>
        match k a w1 with
        | (r, w2, ev2) => (r, w2, ev1 ++ ev2)
        end
    | (Raise e, w1, ev1) => (Raise e, w1, ev1)
    end.

(** [try: m  except Exception as e: h e] *)
Definition try_except {A} (m : M A) (h : Exn -> M A) : M A :=
  fun w =>
    match m w with
    | (Ok a, w1, ev1) => (Ok a, w1, ev1)
    | (Raise e, w1, ev1) =>
        match h e w1 with
        | (r, w2, ev2) => (r, w2, ev1 ++ ev2)
        end
    end.

Declare Scope m_scope.
Delimit Scope m_scope with m.
Notation "x <- c1 ;; c2" := (bind c1 (fun x => c2))
  (at level 100, c1 at next level, right associativity) : m_scope.
Notation "c1 ;;; c2" := (bind c1 (fun _ => c2))
  (at level 100, right associativity) : m_scope.

Definition result_of {A} (x : Res A * World * list Event) : Res A := x.1.1.
Definition world_of {A} (x : Res A * World * list Event) : World := x.1.2.
Definition events_of {A} (x : Res A * World * list Event) : list Event := x.2.

(** [redis_client.get(key)]: the stored value, [None] when the key is
    absent or its expiry instant has passed; ConnectionError when the server
    is unreachable (its message stands for the text redis-py builds from
    host, port and errno). *)
Definition redis_get (key : string) : M (option TaskResponse) :=
  fun w =>
    if redis_up w then
      match redis_db w !! key with
      | Some (v, None) => (Ok (Some v), w, [])
      | Some (v, Some e) =>
          if clock w <? e then (Ok (Some v), w, []) else (Ok None, w, [])
      | None => (Ok None, w, [])
      end
    else (Raise (ConnectionError "Error connecting to redis"), w, []).

(** [redis_client.set(key, value, ex=ex)]: without [ex] the key is stored
    with no expiry (SET drops an earlier time to live). *)
Definition redis_set (key : string) (v : TaskResponse) (ex : option Z) : M unit :=
  fun w =>
    if redis_up w then
      let e := match ex with Some d => Some (clock w + d) | None => None end in
      (Ok tt,
       mkWorld (redis_up w) (<[key := (v, e)]> (redis_db w)) (clock w)
               (uuid_src w) (uuid_next w) (task_queue w) (spawned w),
       [EvSet key v ex])
    else (Raise (ConnectionError "Error connecting to redis"), w, []).

(** [str(uuid.uuid4())] *)
Definition uuid4 : M string :=
  fun w =>
    (Ok (uuid_src w (uuid_next w)),
     mkWorld (redis_up w) (redis_db w) (clock w)
             (uuid_src w) (S (uuid_next w)) (task_queue w) (spawned w),
     []).

(** [await asyncio.sleep(secs)] inside [execute_task]; [t] is the task
    object the coroutine holds while it is suspended. *)
Definition asyncio_sleep (secs : Z) (t : Task) : M unit :=
  fun w =>
    (Ok tt,
     mkWorld (redis_up w) (redis_db w) (clock w + secs)
             (uuid_src w) (uuid_next w) (task_queue w) (spawned w),
     [EvSleep t]).

(** [orchestrator.task_queue.append(task_id)] *)
Definition queue_append (tid : string) : M unit :=
  fun w =>
    (Ok tt,
     mkWorld (redis_up w) (redis_db w) (clock w)
             (uuid_src w) (uuid_next w) (task_queue w ++ [tid]) (spawned w),
     []).

(** [asyncio.create_task(orchestrator.execute_task(task_id))]: the
    coroutine is scheduled; it runs after [submit_task] has returned. *)
Definition create_task (tid : string) : M unit :=
  fun w =>
    (Ok tt,
     mkWorld (redis_up w) (redis_db w) (clock w)
             (uuid_src w) (uuid_next w) (task_queue w) (spawned w ++ [tid]),
     []).

(* ===================================================================== *)
(** ** class OrchestratorAgent *)
(* ===================================================================== *)

Local Open Scope m_scope.

(** validate_task: [if not task.task: return False]; [return True]. *)
Definition validate_task (request : TaskRequest) : M bool :=
  if String.eqb (task request) "" then ret false else ret true.

(** One [if kw in task.task.lower(): subtasks.append(Subtask(...))]. *)
Definition plan_step (kw ty : string) (request : TaskRequest)
    (subtasks : list Subtask) : M (list Subtask) :=
  if contains kw (lower (task request)) then
    i <- uuid4 ;;
    ret (subtasks ++ [new_Subtask i ty PENDING])
  else ret subtasks.

(** plan_task *)
Definition plan_task (request : TaskRequest) : M (list Subtask) :=
  let subtasks := [] in
  subtasks <- plan_step "research" WEB_RESEARCH request subtasks ;;
  subtasks <- plan_step "code" CODE_GENERATION request subtasks ;;
  subtasks <- plan_step "analyze" DATA_ANALYSIS request subtasks ;;
  subtasks <- plan_step "write" CONTENT_CREATION request subtasks ;;
  ret subtasks.

(** notify_clients: the class body defines it twice and the second
    definition, whose body is [pass], is the one in effect. *)
Definition notify_clients (tid : string) : M unit := ret tt.

(** [sum(1 for st in task.subtasks if st.status == COMPLETED)] *)
Definition count_completed (l : list Subtask) : nat :=
  length (filter (fun st => status st = COMPLETED) l).

(** [completed / total if total > 0 else 0] *)
Definition progress_ratio (completed total : nat) : Q :=
  if (0 <? total)%nat
  then Qred (Z.of_nat completed # Pos.of_nat total)
  else 0%Q.

(** [all(st.status == COMPLETED for st in task.subtasks)] *)
Definition all_completed (l : list Subtask) : bool :=
  forallb (fun st => String.eqb (status st) COMPLETED) l.

Definition redis_key (tid : string) : string := "task:" +:+ tid.

(** The body of [for subtask in task.subtasks] for the sub-task at
    position [i] of the list; the objects are updated in place. *)
Definition process_subtask (tid : string) (t : Task) (i : nat) : M Task :=
  match t_subtasks t !! i with
  | None => ret t
  | Some subtask =>
      if String.eqb (status subtask) PENDING then
        let subtask1 :=
          mkSubtask (id subtask) (type subtask) IN_PROGRESS
                    (result subtask) (error subtask) (progress subtask) in
        let t1 :=
          mkTask (t_task_id t) (t_status t) (t_result t) (t_error t)
                 (t_progress t) (<[i := subtask1]> (t_subtasks t)) in
        asyncio_sleep 1 t1 ;;;
        let subtask2 :=
          mkSubtask (id subtask) (type subtask) COMPLETED
                    (Some ("Subtask " +:+ id subtask +:+ " completed"))
                    (error subtask) 1 in
        let subs := <[i := subtask2]> (t_subtasks t) in
        let completed := count_completed subs in
        let total := length subs in
        let t2 :=
          mkTask (t_task_id t) (t_status t) (t_result t) (t_error t)
                 (progress_ratio completed total) subs in
        redis_set (redis_key tid) (Task_dict t2) None ;;;
        notify_clients tid ;;;
        ret t2
      else ret t
  end.

(** The whole [for] loop, over the positions still to visit. *)
Fixpoint process_subtasks (tid : string) (t : Task) (positions : list nat) : M Task :=
  match positions with
  | [] => ret t
  | i :: rest =>
      t' <- process_subtask tid t i ;;
      process_subtasks tid t' rest
  end.

(** The closing [if all(...)] of [execute_task]. *)
Definition complete_task (tid : string) (t : Task) : M unit :=
  if all_completed (t_subtasks t) then
    let t' :=
      mkTask (t_task_id t) COMPLETED (t_result t) (t_error t)
             (t_progress t) (t_subtasks t) in
    redis_set (redis_key tid) (Task_dict t') None
  else ret tt.

(** The part of [execute_task] that follows the load of the task. *)
Definition run_task (tid : string) (t : Task) : M unit :=
  t' <- process_subtasks tid t (seq 0 (length (t_subtasks t))) ;;
  complete_task tid t'.

(** execute_task *)
Definition execute_task (tid : string) : M unit :=
  task_data <- redis_get (redis_key tid) ;;
  match task_data with
  | None => ret tt
  | Some r =>
      match Subtasks_of_dicts (r_subtasks r) with
      | None => raise (ValidationError "validation error for Subtask")
      | Some subs =>
          run_task tid
            (mkTask (task_id r) (r_status r) (r_result r) (r_error r)
                    (r_progress r) subs)
      end
  end.

(* ===================================================================== *)
(** ** The HTTP endpoints *)
(* ===================================================================== *)

(** POST /tasks/submit *)
Definition submit_task (request : TaskRequest) : M TaskResponse :=
  try_except
    (valid <- validate_task request ;;
     if negb valid then raise (HTTPException 400 "Invalid task")
     else
       tid <- uuid4 ;;
       subtasks <- plan_task request ;;
       let response :=
         mkTaskResponse tid PENDING None None 0 (map Subtask_dict subtasks) in
       redis_set (redis_key tid) response (Some 604800) ;;;
       queue_append tid ;;;
       create_task tid ;;;
       ret response)
    (fun e => raise (HTTPException 500 ("Error submitting task: " +:+ Exn_str e))).

(** GET /tasks/{task_id}: the returned dictionary is the stored one with
    its sub-tasks rebuilt as [Subtask] objects. *)
Definition get_task_status (tid : string) : M Task :=
  try_except
    (task_data <- redis_get (redis_key tid) ;;
     match task_data with
     | None => raise (HTTPException 404 "Task not found")
     | Some r =>
         match Subtasks_of_dicts (r_subtasks r) with
         | None => raise (ValidationError "validation error for Subtask")
         | Some subs =>
             ret (mkTask (task_id r) (r_status r) (r_result r) (r_error r)
                         (r_progress r) subs)
         end
     end)
    (fun e =>
       match e with
       | JSONDecodeError _ => raise (HTTPException 500 "Invalid task data")
       | _ => raise (HTTPException 500 (Exn_str e))
       end).

(** The life of one submitted task: the request handler runs, and then
    the coroutine it scheduled with [create_task] for the new task. *)
Definition task_lifetime (request : TaskRequest) : M unit :=
  response <- submit_task request ;;
  execute_task (task_id response).

(** What FastAPI sends back for the outcome of a handler: the status,
    and the detail member of the JSON body when the body has one.  An
    HTTPException is answered with its status and detail; any other
    exception that leaves a handler is answered with status 500 and a plain
    text body, which has no detail. *)
Record HttpResponse : Type := mkHttpResponse {
  http_status : Z;
  http_detail : option string
}.

Definition http_response {A} (r : Res A) : HttpResponse :=
  match r with
  | Ok _ => mkHttpResponse 200 None
  | Raise (HTTPException c d) => mkHttpResponse c (Some d)
  | Raise _ => mkHttpResponse 500 None
  end.

Local Close Scope m_scope.

(* ===================================================================== *)
(** ** Front end: services/api.ts *)
(* ===================================================================== *)

Module Api.

Inductive ErrorType : Type :=
| SERVER_ERROR
| NETWORK_ERROR
| REDIS_UNAVAILABLE
| VALIDATION_ERROR
| UNKNOWN_ERROR.

(** interface ApiErrorResponse *)
Record ApiErrorResponse : Type := mkApiErrorResponse {
  message : string;
  type : ErrorType;
  statusCode : option Z;
  retryable : bool
}.

(** The body of an error response, [axiosError.response.data]. *)
Record ErrorData : Type := mkErrorData {
  data_detail : option string;
  data_message : option string
}.

(** The value caught by the [catch] clause. *)
Inductive Caught : Type :=
| AxiosWithResponse (status : Z) (data : ErrorData)
| AxiosWithRequest      (* the request was made, no response came *)
| AxiosBare             (* an axios error with neither *)
| NotAxios.

(** [a || b] on an optional string: undefined and the empty string are
    falsy. *)
Definition js_or (a : option string) (b : string) : string :=
  match a with
  | Some s => if String.eqb s "" then b else s
  | None => b
  end.

(** [a || b || c] *)
Definition js_or3 (a b : option string) (c : string) : string :=
  js_or a (js_or b c).

(** [data.detail?.includes(x)], used as a condition. *)
Definition detail_includes (d : ErrorData) (x : string) : bool :=
  match data_detail d with
  | Some s => contains x s
  | None => false
  end.

Definition handleApiError (error : Caught) (defaultMessage : string)
  : ApiErrorResponse :=
  match error with
  | AxiosWithResponse statusCode data =>
      if (statusCode =? 503)
         && (detail_includes data "Storage service" || detail_includes data "Redis")
      then
        mkApiErrorResponse
          "Storage service is temporarily unavailable. Some features may be limited."
          REDIS_UNAVAILABLE (Some statusCode) true
      else if statusCode =? 400 then
        mkApiErrorResponse
          (js_or (data_detail data) "Invalid request parameters")
          VALIDATION_ERROR (Some statusCode) false
      else if 500 <=? statusCode then
        mkApiErrorResponse
          (js_or (data_detail data) "Server error occurred. Please try again later.")
          SERVER_ERROR (Some statusCode) true
      else
        mkApiErrorResponse
          (js_or3 (data_detail data) (data_message data) defaultMessage)
          UNKNOWN_ERROR (Some statusCode) (statusCode <? 500)
  | AxiosWithRequest =>
      mkApiErrorResponse
        "No response received from server. Please check your connection and try again."
        NETWORK_ERROR None true
  | AxiosBare | NotAxios =>
      mkApiErrorResponse defaultMessage UNKNOWN_ERROR None false
  end.

(** What axios does with the server's answer: a status from 200 to 299
    resolves the promise, any other status rejects it with an error that
    carries the response. *)
Definition axios_outcome (h : HttpResponse) : option Caught :=
  if (200 <=? http_status h) && (http_status h <? 300) then None
  else Some (AxiosWithResponse (http_status h)
                               (mkErrorData (http_detail h) None)).

(** The error that [submitTask] throws to its caller, if any. *)
Definition submitTask_error (h : HttpResponse) : option ApiErrorResponse :=
  match axios_outcome h with
  | None => None
  | Some e => Some (handleApiError e "Failed to submit task")
  end.

(** The error that [getTaskStatus] throws to its caller, if any. *)
Definition getTaskStatus_error (h : HttpResponse) : option ApiErrorResponse :=
  match axios_outcome h with
  | None => None
  | Some e => Some (handleApiError e "Failed to get task status")
  end.

End Api.

(* ===================================================================== *)
(** ** Front end: components/TaskReplay.tsx *)
(* ===================================================================== *)

Module Replay.

(** A log entry; [timestamp] is the value of
    [new Date(entry.timestamp).getTime()], in milliseconds. *)
Record LogEntry : Type := mkLogEntry {
  timestamp : Z;
  subtask_id : option string;
  action : string
}.

(** interface ReplayData (the fields the animation reads). *)
Record ReplayData : Type := mkReplayData {
  logs : list LogEntry
}.

(** A message sent on the replay socket. *)
Inductive Msg : Type :=
| MsgResume
| MsgPause
| MsgSetSpeed (speed : Q).

(** The React state and refs of the component that the animation and
    the speed control touch. *)
Record State : Type := mkState {
  replayData : option ReplayData;
  isPlaying : bool;
  currentLogIndex : Z;
  speed : Q;
  currentTime : Q;
  visibleLogs : list LogEntry;
  lastTimestampRef : option Q;     (* null, or a frame timestamp *)
  frameRequested : bool;           (* a requestAnimationFrame is pending *)
  socketOpen : bool;               (* socket.current is set and OPEN *)
  sent : list Msg                  (* messages sent on it so far *)
}.

(** [!lastTimestampRef.current]: null and 0 are falsy. *)
Definition ref_falsy (r : option Q) : bool :=
  match r with
  | None => true
  | Some q => Qeq_bool q 0
  end.

(** [elapsed > 1000 / speed]; dividing by a zero speed gives Infinity,
    which nothing exceeds. *)
Definition exceeds_frame_delay (elapsed speed : Q) : bool :=
  if Qeq_bool speed 0 then false
  else negb (Qle_bool elapsed (1000 / speed)).

(** [arr.slice(0, e)] *)
Definition slice0 {A} (l : list A) (e : Z) : list A :=
  if e <? 0 then take (Z.to_nat (Z.of_nat (length l) + e)) l
  else take (Z.to_nat e) l.

(** [arr[i]] *)
Definition js_index {A} (l : list A) (i : Z) : option A :=
  if i <? 0 then None else l !! Z.to_nat i.

(** animate(timestamp) *)
Definition animate (st : State) (ts : Q) : State :=
  let last :=
    if ref_falsy (lastTimestampRef st) then ts
    else match lastTimestampRef st with Some q => q | None => ts end in
  let elapsed := (ts - last)%Q in
  if exceeds_frame_delay elapsed (speed st) then
    match replayData st with
    | Some rd =>
        if currentLogIndex st <? Z.of_nat (length (logs rd)) - 1 then
          let nextIndex := currentLogIndex st + 1 in
          let time :=
            match js_index (logs rd) 0, js_index (logs rd) nextIndex with
            | Some e0, Some en =>
                (inject_Z (timestamp en - timestamp e0) / 1000)%Q
            | _, _ => currentTime st
            end in
          mkState (replayData st) (isPlaying st) nextIndex (speed st) time
                  (slice0 (logs rd) (nextIndex + 1))
                  (Some ts)
                  (isPlaying st)
                  (socketOpen st) (sent st)
        else
          mkState (replayData st) false (currentLogIndex st) (speed st)
                  (currentTime st) (visibleLogs st) (Some ts) false
                  (socketOpen st) (sent st)
    | None =>
        mkState (replayData st) false (currentLogIndex st) (speed st)
                (currentTime st) (visibleLogs st) (Some ts) false
                (socketOpen st) (sent st)
    end
  else
    mkState (replayData st) (isPlaying st) (currentLogIndex st) (speed st)
            (currentTime st) (visibleLogs st) (Some last) (isPlaying st)
            (socketOpen st) (sent st).

(** The play/pause effect, run again whenever isPlaying, replayData,
    currentLogIndex or speed has changed. *)
Definition play_effect (st : State) : State :=
  match isPlaying st, replayData st with
  | true, Some _ =>
      mkState (replayData st) (isPlaying st) (currentLogIndex st) (speed st)
              (currentTime st) (visibleLogs st) None true
              (socketOpen st) (sent st)
  | _, _ =>
      mkState (replayData st) (isPlaying st) (currentLogIndex st) (speed st)
              (currentTime st) (visibleLogs st) (lastTimestampRef st) false
              (socketOpen st) (sent st)
  end.

(** handleSpeedChange(newSpeed) *)
Definition handleSpeedChange (st : State) (newSpeed : Q) : State :=
  mkState (replayData st) (isPlaying st) (currentLogIndex st) newSpeed
          (currentTime st) (visibleLogs st) (lastTimestampRef st)
          (frameRequested st) (socketOpen st)
          (if socketOpen st then sent st ++ [MsgSetSpeed newSpeed] else sent st).


End Replay.

(* ===================================================================== *)
(** ** Vocabulary of the properties *)
(* ===================================================================== *)

(** A capability keyword matches a description the way [plan_task] tests
    it: it occurs in the lower-cased description. *)
Definition keyword_matches (kw description : string) : Prop :=
  occurs_in kw (lower description).

(** The keyword of each capability type, as the four tests of
    [plan_task] pair them. *)
Definition capability_keywords : list (string * string) :=
  [ ("research", WEB_RESEARCH); ("code", CODE_GENERATION);
    ("analyze", DATA_ANALYSIS); ("write", CONTENT_CREATION) ].

(** A sub-task draft without its id. *)
Definition draft_shape (s : Subtask)
  : string * string * option string * option string * Q :=
  (type s, status s, result s, error s, progress s).

(** The snapshots written to Redis during a run, in order. *)
Fixpoint stored_snapshots (evs : list Event) : list TaskResponse :=
  match evs with
  | [] => []
  | EvSet _ v _ :: evs' => v :: stored_snapshots evs'
  | EvSleep _ :: evs' => stored_snapshots evs'
  end.

(** The task objects held at the suspension points of a run, in order. *)
Fixpoint suspended_tasks (evs : list Event) : list Task :=
  match evs with
  | [] => []
  | EvSleep t :: evs' => t :: suspended_tasks evs'
  | EvSet _ _ _ :: evs' => suspended_tasks evs'
  end.

(** The status recorded in a stored sub-task dictionary. *)
Definition dict_status (d : JDict) : option string := required_str "status" d.






(** The capability types that [plan_task] emits for a description. *)
Definition planned_types (description : string) : list string :=
  (if contains "research" (lower description) then [WEB_RESEARCH] else []) ++
  (if contains "code" (lower description) then [CODE_GENERATION] else []) ++
  (if contains "analyze" (lower description) then [DATA_ANALYSIS] else []) ++
  (if contains "write" (lower description) then [CONTENT_CREATION] else []).

Definition is_draft (s : Subtask) : Prop :=
  status s = PENDING /\ progress s = 0%Q /\ result s = None /\ error s = None.



(** What the loop body of [execute_task] makes of one sub-task. *)
Definition finish_subtask (s : Subtask) : Subtask :=
  if String.eqb (status s) PENDING then
    mkSubtask (id s) (type s) COMPLETED
              (Some ("Subtask " +:+ id s +:+ " completed")) (error s) 1
  else s.

(** The task object that [execute_task] builds from a stored record whose
    sub-tasks are [subs]. *)
Definition loaded_task (r : TaskResponse) (subs : list Subtask) : Task :=
  mkTask (task_id r) (r_status r) (r_result r) (r_error r) (r_progress r) subs.


(** The record [submit_task] stores for a new task with the given
    sub-task drafts, and the task object [execute_task] loads from it. *)
Definition submitted_response (tid : string) (subtasks : list Subtask) : TaskResponse :=
  mkTaskResponse tid PENDING None None 0 (map Subtask_dict subtasks).

Definition submitted_task (tid : string) (subtasks : list Subtask) : Task :=
  mkTask tid PENDING None None 0 subtasks.


(* ===================================================================== *)
(** ** Sample inputs *)
(* ===================================================================== *)

(** A reachable, empty Redis at time 0 and a fixed id source. *)
Definition sample_world : World :=
  mkWorld true ∅ 0 (fun n => "id-" +:+ pretty n) 0 [] [].

(** The same with the Redis server unreachable. *)
Definition sample_world_down : World :=
  mkWorld false ∅ 0 (fun n => "id-" +:+ pretty n) 0 [] [].

Definition sample_request (description : string) : TaskRequest :=
  mkTaskRequest description [] 1 None.


(** The value [redis_client.get(key)] yields when the server answers. *)
Definition stored_value (w : World) (key : string) : option TaskResponse :=
  match redis_db w !! key with
  | Some (v, None) => Some v
  | Some (v, Some e) => if clock w <? e then Some v else None
  | None => None
  end.

(** A stored plan of two sub-tasks that depend on each other. *)
Definition cyclic_plan : list JDict :=
  [ [ ("id", JStr "a"); ("type", JStr WEB_RESEARCH); ("status", JStr PENDING);
      ("dependencies", JArr [JStr "b"]) ];
    [ ("id", JStr "b"); ("type", JStr CONTENT_CREATION); ("status", JStr PENDING);
      ("dependencies", JArr [JStr "a"]) ] ].

(** A world whose store holds a PENDING task with that plan. *)
Definition cyclic_world : World :=
  mkWorld true
    {[ redis_key "t1" := (mkTaskResponse "t1" PENDING None None 0 cyclic_plan, None) ]}
    0 (fun n => "id-" +:+ pretty n) 0 [] [].

(** A replay of two entries five seconds apart, playing at speed 1 with
    the first entry shown and the reference frame at 100 ms. *)
Definition sample_replay : Replay.State :=
  Replay.mkState
    (Some (Replay.mkReplayData
             [ Replay.mkLogEntry 0 (Some "a") "started";
               Replay.mkLogEntry 5000 (Some "a") "completed" ]))
    true 0 1 0 [Replay.mkLogEntry 0 (Some "a") "started"]
    (Some 100%Q) true true [].


(** The last snapshot of the task submitted as "research" in
    [sample_world], and the task object held while its sub-task runs. *)
Definition sample_completed : TaskResponse :=
  mkTaskResponse "id-0" COMPLETED None None 1
    [ Subtask_dict
        (mkSubtask "id-1" WEB_RESEARCH COMPLETED
                   (Some "Subtask id-1 completed") None 1) ].

Definition sample_suspended : Task :=
  mkTask "id-0" PENDING None None 0
    [ mkSubtask "id-1" WEB_RESEARCH IN_PROGRESS None None 0 ].


(** The four capability types, in the order [plan_task] tests them. *)
Definition capability_order : list string :=
  [WEB_RESEARCH; CODE_GENERATION; DATA_ANALYSIS; CONTENT_CREATION].

(** [d] seconds pass while nothing else happens. *)
Definition tick (d : Z) (w : World) : World :=
  mkWorld (redis_up w) (redis_db w) (clock w + d) (uuid_src w) (uuid_next w)
          (task_queue w) (spawned w).

(** The sub-tasks of a task object that are in progress. *)
Definition in_progress_subtasks (t : Task) : list Subtask :=
  filter (fun st => status st = IN_PROGRESS) (t_subtasks t).

(** A sub-task as the loop of [execute_task] leaves a pending one. *)
Definition is_finished (s : Subtask) : Prop :=
  status s = COMPLETED /\ progress s = 1%Q /\
  result s = Some ("Subtask " +:+ id s +:+ " completed") /\ error s = None.


(** The task object at the end of the life of a submitted task. *)
Definition completed_task (tid : string) (subtasks : list Subtask) : Task :=
  mkTask tid COMPLETED None None
         (progress_ratio (length subtasks) (length subtasks))
         (map finish_subtask subtasks).

(** The world right after [submit_task] has accepted a request. *)
Definition world_after_submit (w : World) (subtasks : list Subtask) : World :=
  let tid := uuid_src w (uuid_next w) in
  mkWorld true
    (<[redis_key tid := (submitted_response tid subtasks,
                         Some (clock w + 604800))]> (redis_db w))
    (clock w) (uuid_src w) (S (uuid_next w) + length subtasks)%nat
    (task_queue w ++ [tid]) (spawned w ++ [tid]).


(* ===================================================================== *)
(** ** Front end: the fetch based calls of services/api.ts *)
(* ===================================================================== *)

Module ApiFetch.

(** What a promise is rejected with, as a [catch] clause receives it: an
    [Error] instance, or the plain structured error object. *)
Inductive Thrown : Type :=
| ThrownError (message : string)
| ThrownApiError (e : Api.ApiErrorResponse).

(** A fetch [Response] whose body can be read, as [handleApiResponse]
    reads it.  [parsed] is the outcome of the [try] block around
    [JSON.parse(errorText)]: [None] when it throws (the text is not JSON,
    or is the JSON null), otherwise [Some] of the [detail] member of the
    parsed value: [Some None] when there is no such member or it is
    falsy but not a string, [Some (Some s)] when it is the string [s].
    Bodies whose [detail] is truthy and not a string are outside this
    model. *)
Record Response (T : Type) : Type := mkResponse {
  status : Z;
  text : string;                       (* await response.text() *)
  parsed : option (option string);
  json : option T                      (* await response.json(), if it resolves *)
}.
Arguments mkResponse {T} status text parsed json.
Arguments status {T} r.
Arguments text {T} r.
Arguments parsed {T} r.
Arguments json {T} r.

(** [response.ok] *)
Definition ok {T} (r : Response T) : bool :=
  (200 <=? status r) && (status r <=? 299).

(** The outcome of [fetch]: it rejects with a TypeError when no answer
    comes, otherwise it resolves with a response whatever its status. *)
Inductive Fetched (T : Type) : Type :=
| FetchFailed (message : string)
| FetchResponse (r : Response T).
Arguments FetchFailed {T} message.
Arguments FetchResponse {T} r.

(** handleApiResponse *)
Definition handleApiResponse {T} (response : Response T) : Thrown + T :=
  if negb (ok response) then
    let errorMessage :=
      match parsed response with
      | Some detail =>
          Api.js_or detail ("Error: " +:+ Z_to_string (status response))
      | None =>
          "Error " +:+ Z_to_string (status response) +:+ ": " +:+
          (if String.eqb (text response) "" then "Unknown error" else text response)
      end in
    inl (ThrownApiError
           (Api.mkApiErrorResponse errorMessage
              (if 500 <=? status response then Api.SERVER_ERROR
               else Api.UNKNOWN_ERROR)
              (Some (status response))
              ((500 <=? status response) || (status response =? 429))))
  else
    match json response with
    | Some data => inr data
    | None =>
        inl (ThrownApiError
               (Api.mkApiErrorResponse "Failed to parse API response"
                  Api.UNKNOWN_ERROR None false))
    end.

(** The shape shared by deleteTask, getTaskLogs, getTaskReplay and
    testTaskSubmission: fetch, hand the response to handleApiResponse, and
    throw again whatever was caught. *)
Definition fetch_and_handle {T} (f : Fetched T) : Thrown + T :=
  match f with
  | FetchFailed m => inl (ThrownError m)
  | FetchResponse r => handleApiResponse r
  end.

Definition deleteTask {T} (f : Fetched T) : Thrown + T := fetch_and_handle f.
Definition getTaskLogs {T} (f : Fetched T) : Thrown + T := fetch_and_handle f.
Definition getTaskReplay {T} (f : Fetched T) : Thrown + T := fetch_and_handle f.

(** The body the history endpoint answers with. *)
Record HistoryData : Type := mkHistoryData {
  data_status : string;
  data_keys : list string
}.

(** The object getTaskHistory builds when it does not pass the body
    on. *)
Record History : Type := mkHistory {
  tasks : option (list string);
  keys : option (list string);
  h_status : option string;
  error : option string
}.

(** getTaskHistory: a parsed body is returned as it is ([inl]), whatever
    members it has; otherwise the function resolves with an object of its
    own ([inr]).  What handleApiResponse rejects with is a plain object, not
    an [Error], so its message is not used. *)
Definition getTaskHistory {T} (f : Fetched T) : T + History :=
  match f with
  | FetchFailed _ => inr (mkHistory (Some []) None None None)
  | FetchResponse response =>
      match handleApiResponse response with
      | inr data => inl data
      | inl err =>
          inr (mkHistory None (Some []) (Some "error")
                 (Some match err with
                       | ThrownError m => m
                       | ThrownApiError _ => "Unknown error in response handling"
                       end))
      end
  end.

(** The body the health endpoint answers with. *)
Record HealthData : Type := mkHealthData {
  health_status : option string
}.

(** checkApiHealth *)
Definition checkApiHealth (f : Fetched HealthData) : bool :=
  match f with
  | FetchFailed _ => false
  | FetchResponse response =>
      if negb (ok response) then false
      else match json response with
           | Some data =>
               match health_status data with
               | Some s => String.eqb s "ok"
               | None => false
               end
           | None => false
           end
  end.

End ApiFetch.

(* ===================================================================== *)
(** ** Front end: handleApiError on a body of any shape *)
(* ===================================================================== *)

(** [Api.handleApiError] takes the body of the answer as an object whose
    detail and message members are strings or absent, which is what the
    backend sends.  The source types the body [any]; this module follows
    it on every body axios can hand over.  [None] stands for the TypeError
    the function then throws instead of returning. *)
Module ApiAny.

(** A member of the body, as JavaScript sees it. *)
Inductive Value : Type :=
| VUndefined                            (* there is no such member *)
| VNull
| VBool (b : bool)
| VNum (q : Q)
| VStr (s : string)
| VArr (strings : list (option string)) (* an array; for each element, the
                                           string it is, if it is one *)
| VObj.                                 (* any other object *)

(** [axiosError.response.data] *)
Inductive Body : Type :=
| BodyNull                              (* null: the body was the JSON null *)
| BodyObject (detail message : Value)   (* an object and its two members *)
| BodyOther.                            (* a string (also a text that is not
                                           JSON), number, boolean or array:
                                           it has neither member *)

(** [data.detail] and [data.message]; reading a member of null throws. *)
Definition get_detail (data : Body) : option Value :=
  match data with
  | BodyNull => None
  | BodyObject detail _ => Some detail
  | BodyOther => Some VUndefined
  end.

Definition get_message (data : Body) : option Value :=
  match data with
  | BodyNull => None
  | BodyObject _ message => Some message
  | BodyOther => Some VUndefined
  end.

(** Truthiness *)
Definition truthy (v : Value) : bool :=
  match v with
  | VUndefined | VNull => false
  | VBool b => b
  | VNum q => negb (Qeq_bool q 0)
  | VStr s => negb (String.eqb s "")
  | VArr _ | VObj => true
  end.

(** [a || b] *)
Definition js_or (a b : Value) : Value := if truthy a then a else b.

(** [v?.includes(x)], used as a condition: undefined for undefined and
    null, the substring test on a string, the membership test on an array;
    any other value has no includes to call. *)
Definition includes (v : Value) (x : string) : option bool :=
  match v with
  | VUndefined | VNull => Some false
  | VStr s => Some (contains x s)
  | VArr strings => Some (bool_decide (Some x ∈ strings))
  | VBool _ | VNum _ | VObj => None
  end.

(** The value caught by the [catch] clause. *)
Inductive Caught : Type :=
| AxiosWithResponse (status : Z) (data : Body)
| AxiosWithRequest
| AxiosBare
| NotAxios.

(** What the function returns: [message] is declared a string, and is
    whatever value the body's member was. *)
Record ErrorResponse : Type := mkErrorResponse {
  message : Value;
  type : Api.ErrorType;
  statusCode : option Z;
  retryable : bool
}.

(** handleApiError *)
Definition handleApiError (error : Caught) (defaultMessage : string)
  : option ErrorResponse :=
  match error with
  | AxiosWithResponse statusCode data =>
      storage ←
        (if statusCode =? 503 then
           detail ← get_detail data;
           service ← includes detail "Storage service";
           if (service : bool) then Some true
           else detail' ← get_detail data; includes detail' "Redis"
         else Some false);
      if (storage : bool) then
        Some (mkErrorResponse
                (VStr "Storage service is temporarily unavailable. Some features may be limited.")
                Api.REDIS_UNAVAILABLE (Some statusCode) true)
      else if statusCode =? 400 then
        detail ← get_detail data;
        Some (mkErrorResponse
                (js_or detail (VStr "Invalid request parameters"))
                Api.VALIDATION_ERROR (Some statusCode) false)
      else if 500 <=? statusCode then
        detail ← get_detail data;
        Some (mkErrorResponse
                (js_or detail
                   (VStr "Server error occurred. Please try again later."))
                Api.SERVER_ERROR (Some statusCode) true)
      else
        detail ← get_detail data;
        message ← get_message data;
        Some (mkErrorResponse
                (js_or detail (js_or message (VStr defaultMessage)))
                Api.UNKNOWN_ERROR (Some statusCode) (statusCode <? 500))
  | AxiosWithRequest =>
      Some (mkErrorResponse
              (VStr "No response received from server. Please check your connection and try again.")
              Api.NETWORK_ERROR None true)
  | AxiosBare | NotAxios =>
      Some (mkErrorResponse (VStr defaultMessage) Api.UNKNOWN_ERROR None false)
  end.

(** The bodies and results of [Api.handleApiError] among these. *)
Definition of_member (m : option string) : Value :=
  match m with
  | Some s => VStr s
  | None => VUndefined
  end.

Definition of_ErrorData (d : Api.ErrorData) : Body :=
  BodyObject (of_member (Api.data_detail d)) (of_member (Api.data_message d)).

Definition of_Caught (error : Api.Caught) : Caught :=
  match error with
  | Api.AxiosWithResponse status data => AxiosWithResponse status (of_ErrorData data)
  | Api.AxiosWithRequest => AxiosWithRequest
  | Api.AxiosBare => AxiosBare
  | Api.NotAxios => NotAxios
  end.

Definition of_response (e : Api.ApiErrorResponse) : ErrorResponse :=
  mkErrorResponse (VStr (Api.message e)) (Api.type e) (Api.statusCode e)
                  (Api.retryable e).

End ApiAny.


(* ===================================================================== *)
(** ** Front end: the controls of components/TaskReplay.tsx *)
(* ===================================================================== *)

Module ReplayUi.

(** handlePlay *)
Definition handlePlay (st : Replay.State) : Replay.State :=
  Replay.mkState (Replay.replayData st) true (Replay.currentLogIndex st)
    (Replay.speed st) (Replay.currentTime st) (Replay.visibleLogs st)
    (Replay.lastTimestampRef st) (Replay.frameRequested st) (Replay.socketOpen st)
    (if Replay.socketOpen st then Replay.sent st ++ [Replay.MsgResume]
     else Replay.sent st).

(** handlePause: the pending animation frame is cancelled. *)
Definition handlePause (st : Replay.State) : Replay.State :=
  Replay.mkState (Replay.replayData st) false (Replay.currentLogIndex st)
    (Replay.speed st) (Replay.currentTime st) (Replay.visibleLogs st)
    (Replay.lastTimestampRef st) false (Replay.socketOpen st)
    (if Replay.socketOpen st then Replay.sent st ++ [Replay.MsgPause]
     else Replay.sent st).

(** handleRestart: the socket, if any, is closed and dropped. *)
Definition handleRestart (st : Replay.State) : Replay.State :=
  Replay.mkState (Replay.replayData st) false (-1)
    (Replay.speed st) 0 [] (Replay.lastTimestampRef st)
    (Replay.frameRequested st) false (Replay.sent st).

(** *** The effects of the component

    The component has three effects, declared in this order: the one that
    loads the replay data (dependencies taskId, speed), the one that keeps
    the replay socket (replayData, isPlaying, taskId, speed), and the
    play/pause effect [Replay.play_effect] (isPlaying, replayData,
    currentLogIndex, speed).  taskId is a prop and does not change. *)









(** A message of the replay socket, as the [onmessage] handler tells
    them apart. *)
Inductive ServerMsg : Type :=
| TaskInitial
| LogEntryMsg (e : Replay.LogEntry)
| ReplayComplete
| ErrorMsg (error : string)   (* no known type, and an [error] member *)
| OtherMsg.

(** socket.onmessage, for the part of the state modelled here. *)
Definition onmessage (st : Replay.State) (m : ServerMsg) : Replay.State :=
  match m with
  | TaskInitial | OtherMsg => st
  | LogEntryMsg e =>
      Replay.mkState (Replay.replayData st) (Replay.isPlaying st)
        (Replay.currentLogIndex st + 1)
        (Replay.speed st) (Replay.currentTime st) (Replay.visibleLogs st ++ [e])
        (Replay.lastTimestampRef st) (Replay.frameRequested st)
        (Replay.socketOpen st) (Replay.sent st)
  | ReplayComplete =>
      Replay.mkState (Replay.replayData st) false (Replay.currentLogIndex st)
        (Replay.speed st) (Replay.currentTime st) (Replay.visibleLogs st)
        (Replay.lastTimestampRef st) (Replay.frameRequested st)
        (Replay.socketOpen st) (Replay.sent st)
  | ErrorMsg error =>
      if String.eqb error "" then st
      else
        Replay.mkState (Replay.replayData st) false (Replay.currentLogIndex st)
          (Replay.speed st) (Replay.currentTime st) (Replay.visibleLogs st)
          (Replay.lastTimestampRef st) (Replay.frameRequested st)
          (Replay.socketOpen st) (Replay.sent st)
  end.

(** [x % 60] on numbers: the remainder has the sign of [x]. *)
Definition js_rem60 (x : Q) : Q :=
  let q := (x / 60)%Q in
  let t := if Qle_bool 0 q then Qfloor q else Qceiling q in
  (x - 60 * inject_Z t)%Q.

(** [s.padStart(2, '0')] *)
Definition padStart2 (s : string) : string :=
  match String.length s with
  | O => "00"
  | S O => "0" +:+ s
  | _ => s
  end.

(** The numbers of the source are doubles; the model computes on their
    exact values.  For a time from 0 up to, and not including, 2^53 the
    two agree: the double quotient [seconds / 60] has the floor of the
    exact quotient, the remainder [seconds % 60] is exact, and both
    integers are printed digit for digit.  Negative and larger times are
    outside the model. *)
Definition in_exact_range (seconds : Q) : bool :=
  Qle_bool 0 seconds && negb (Qle_bool 9007199254740992 seconds).

(** formatTime, for a time in that range ([None] outside it). *)
Definition formatTime (seconds : Q) : option string :=
  if in_exact_range seconds then
    let mins := Qfloor (seconds / 60) in
    let secs := Qfloor (js_rem60 seconds) in
    Some (Z_to_string mins +:+ ":" +:+ padStart2 (Z_to_string secs))
  else None.

End ReplayUi.


(** One move of the replay component: an animation frame, a run of the
    play effect, a control, or a message from the replay socket. *)
Inductive replay_step : Replay.State -> Replay.State -> Prop :=
| step_animate st ts : replay_step st (Replay.animate st ts)
| step_play_effect st : replay_step st (Replay.play_effect st)
| step_speed st newSpeed : replay_step st (Replay.handleSpeedChange st newSpeed)
| step_play st : replay_step st (ReplayUi.handlePlay st)
| step_pause st : replay_step st (ReplayUi.handlePause st)
| step_restart st : replay_step st (ReplayUi.handleRestart st)
| step_message st m : replay_step st (ReplayUi.onmessage st m).

(** The index points at the last entry shown. *)
Definition index_matches_entries (st : Replay.State) : Prop :=
  Z.of_nat (length (Replay.visibleLogs st)) = Replay.currentLogIndex st + 1.

(** The entries shown are the first [currentLogIndex + 1] entries of the
    fetched log. *)
Definition shows_prefix (st : Replay.State) (rd : Replay.ReplayData) : Prop :=
  Replay.replayData st = Some rd /\
  -1 <= Replay.currentLogIndex st < Z.of_nat (length (Replay.logs rd)) /\
  Replay.visibleLogs st =
    take (Z.to_nat (Replay.currentLogIndex st + 1)) (Replay.logs rd).


(* ===================================================================== *)
(** ** The WebSocket endpoint, and the status view of the front end *)
(* ===================================================================== *)

(** websocket_endpoint, for a client that stays connected: the first
    [rounds] turns of its [while True] loop.  Each turn reads the record,
    sends it as text when there is one, and sleeps one second.  The result
    is the list of snapshots sent, and the exception that ended the handler
    if one did ([except Exception] logs it and the handler returns). *)
Fixpoint websocket_endpoint (rounds : nat) (tid : string) (w : World)
  : list TaskResponse * option Exn * World :=
  match rounds with
  | O => ([], None, w)
  | S rounds' =>
      match redis_get (redis_key tid) w with
      | (Ok task_data, w1, _) =>
          let '(sent, e, w2) := websocket_endpoint rounds' tid (tick 1 w1) in
          (match task_data with
           | Some v => v :: sent
           | None => sent
           end, e, w2)
      | (Raise e, w1, _) => ([], Some e, w1)
      end
  end.

Module TaskStatusView.

Definition INITIAL_RECONNECT_DELAY : Z := 1000.
Definition MAX_RECONNECT_ATTEMPTS : nat := 5.
Definition MAX_RECONNECT_DELAY : Z := 30000.

(** getReconnectDelay: [Math.min(INITIAL * Math.pow(2, attempt), MAX)] *)
Definition getReconnectDelay (attempt : nat) : Z :=
  Z.min (INITIAL_RECONNECT_DELAY * 2 ^ Z.of_nat attempt) MAX_RECONNECT_DELAY.

(** What a call of attemptReconnect decides before it waits. *)
Inductive Reconnect : Type :=
| GaveUp                                        (* "Connection lost. ..." *)
| Scheduled (delay : Z) (attemptNumber : nat).  (* a timer of [delay] ms *)

(** attemptReconnect, up to the start of its timer: the decision, and
    the new value of the [reconnectAttempts] ref. *)
Definition attemptReconnect (reconnectAttempts : nat) : Reconnect * nat :=
  if (MAX_RECONNECT_ATTEMPTS <=? reconnectAttempts)%nat then
    (GaveUp, reconnectAttempts)
  else
    let delay := getReconnectDelay reconnectAttempts in
    let attemptNumber := (reconnectAttempts + 1)%nat in
    (Scheduled delay attemptNumber, attemptNumber).

(** The delays of the attempts made when every attempt fails, starting
    with the counter at [reconnectAttempts]; [fuel] bounds the number of
    calls looked at. *)
Fixpoint reconnect_delays (fuel : nat) (reconnectAttempts : nat) : list Z :=
  match fuel with
  | O => []
  | S fuel' =>
      match attemptReconnect reconnectAttempts with
      | (GaveUp, _) => []
      | (Scheduled delay _, n) => delay :: reconnect_delays fuel' n
      end
  end.

End TaskStatusView.


(** A stored record whose only sub-task has no status. *)
Definition malformed_record : TaskResponse :=
  mkTaskResponse "t2" PENDING None None 0
    [ [ ("id", JStr "a"); ("type", JStr WEB_RESEARCH) ] ].

Definition malformed_world : World :=
  mkWorld true {[ redis_key "t2" := (malformed_record, None) ]}
          0 (fun n => "id-" +:+ pretty n) 0 [] [].

(** A stored record with one failed and one pending sub-task. *)
Definition failed_subtask : Subtask :=
  mkSubtask "a" WEB_RESEARCH FAILED None (Some "boom") 0.

Definition stuck_record : TaskResponse :=
  mkTaskResponse "t3" PENDING None None 0
    [ Subtask_dict failed_subtask;
      Subtask_dict (new_Subtask "b" CONTENT_CREATION PENDING) ].

Definition stuck_world : World :=
  mkWorld true {[ redis_key "t3" := (stuck_record, None) ]}
          0 (fun n => "id-" +:+ pretty n) 0 [] [].

(** An answer "404 Not Found" with the JSON body FastAPI sends, an
    object whose only member is detail, as fetch delivers it. *)
Definition sample_not_found : ApiFetch.Response ApiFetch.HistoryData :=
  let q := String "034"%char EmptyString in
  ApiFetch.mkResponse 404
    ("{" +:+ q +:+ "detail" +:+ q +:+ ":" +:+ q +:+ "Not Found" +:+ q +:+ "}")
    (Some (Some "Not Found")) None.


(** The log of [sample_replay]. *)
Definition sample_replay_data : Replay.ReplayData :=
  Replay.mkReplayData
    [ Replay.mkLogEntry 0 (Some "a") "started";
      Replay.mkLogEntry 5000 (Some "a") "completed" ].


(* ===================================================================== *)
(** * Properties *)
(* ===================================================================== *)

(** ** Strings *)

Lemma starts_with_spec (p s : string) :
  starts_with p s = true <-> exists b, s = p +:+ b.
Proof.
  revert s. induction p as [|a p IH]; intros s; simpl.
  - split; [intros _; by exists s | done].
  - destruct s as [|b s]; simpl.
    + split; [done | intros [x Hx]; discriminate].
    + destruct (ascii_dec a b) as [->|Hne].
      * rewrite IH. split; intros [x Hx]; exists x.
        -- by rewrite Hx.
        -- by inversion Hx.
      * split; [done | intros [x Hx]; inversion Hx; congruence].
Qed.

Lemma contains_spec (kw s : string) :
  contains kw s = true <-> occurs_in kw s.
Proof.
  unfold occurs_in. induction s as [|c s IH]; simpl.
  - rewrite orb_false_r, starts_with_spec. split.
    + intros [b Hb]. by exists EmptyString, b.
    + intros [a [b Hab]]. destruct a; simpl in Hab; [by exists b | discriminate].
  - rewrite orb_true_iff, starts_with_spec, IH. split.
    + intros [[b Hb] | [a [b Hab]]].
      * by exists EmptyString, b.
      * exists (String c a), b. simpl. by rewrite Hab.
    + intros [a [b Hab]]. destruct a as [|c' a]; simpl in Hab.
      * left. by exists b.
      * right. exists a, b. by inversion Hab.
Qed.

Lemma lower_app (a b : string) : lower (a +:+ b) = lower a +:+ lower b.
Proof. induction a as [|c a IH]; simpl; [done | by rewrite IH]. Qed.

(** A keyword written in lower case that occurs in a description also
    occurs in the lower-cased description. *)
Lemma occurs_in_lower (kw s : string) :
  lower kw = kw -> occurs_in kw s -> occurs_in kw (lower s).
Proof.
  intros Hkw [a [b ->]]. exists (lower a), (lower b).
  by rewrite !lower_app, Hkw.
Qed.

Lemma capability_keywords_lower (kw ty : string) :
  (kw, ty) ∈ capability_keywords -> lower kw = kw.
Proof.
  unfold capability_keywords. rewrite !elem_of_cons, elem_of_nil.
  intros [H|[H|[H|[H|[]]]]]; inversion H; reflexivity.
Qed.

(** ** The planner *)

Lemma plan_task_run (request : TaskRequest) (w : World) :
  exists subtasks,
    plan_task request w =
      (Ok subtasks,
       mkWorld (redis_up w) (redis_db w) (clock w) (uuid_src w)
               (uuid_next w + length subtasks)%nat (task_queue w) (spawned w),
       []) /\
    map type subtasks = planned_types (task request) /\
    Forall is_draft subtasks.
Proof.
  unfold plan_task, plan_step, planned_types, bind, uuid4, ret.
  destruct w as [up db clk src n q sp]; simpl.
  destruct (contains "research" _), (contains "code" _),
           (contains "analyze" _), (contains "write" _); simpl;
    lazymatch goal with
    | |- exists l, (Ok ?l0, _, _) = _ /\ _ => exists l0
    end;
    (split; [repeat f_equal; simpl; lia |]);
    (split; [reflexivity |]);
    repeat constructor.
Qed.

Lemma draft_shape_of_type (l : list Subtask) :
  Forall is_draft l ->
  map draft_shape l = map (fun ty => (ty, PENDING, None, None, 0%Q)) (map type l).
Proof.
  induction 1 as [|s l [Hs [Hp [Hr He]]] _ IH]; simpl; [done |].
  rewrite IH. unfold draft_shape. by rewrite Hs, Hp, Hr, He.
Qed.

Lemma planned_types_matches (kw ty description : string) :
  (kw, ty) ∈ capability_keywords ->
  contains kw (lower description) = true ->
  ty ∈ planned_types description.
Proof.
  unfold capability_keywords, planned_types.
  rewrite !elem_of_cons, elem_of_nil.
  intros [H|[H|[H|[H|[]]]]]; inversion H; subst; intros ->; set_solver.
Qed.

Lemma planned_types_NoDup (description : string) :
  NoDup (planned_types description).
Proof.
  unfold planned_types.
  destruct (contains "research" _), (contains "code" _),
           (contains "analyze" _), (contains "write" _); simpl;
    by apply (bool_decide_unpack _); vm_compute.
Qed.

Lemma planned_types_length (description : string) :
  (length (planned_types description) <= 4)%nat.
Proof.
  unfold planned_types.
  destruct (contains "research" _), (contains "code" _),
           (contains "analyze" _), (contains "write" _); simpl; lia.
Qed.

(** C5.  For every description and context the planner returns normally,
    writes nothing to the store and emits no event.  It returns the empty
    list only if no capability keyword matches the description; when one
    of the keywords research, code, analyze, write occurs in the
    description, as written or after lower-casing, the list has a sub-task
    of the corresponding type; and two calls on the same description, with
    any context and any id source, return the same drafts up to their
    ids. *)
Theorem plan_task_keyword_coverage (request : TaskRequest) (w : World) :
  exists subtasks w',
    plan_task request w = (Ok subtasks, w', []) /\
    redis_db w' = redis_db w /\
    (subtasks = [] ->
       forall kw ty, (kw, ty) ∈ capability_keywords ->
                     ~ keyword_matches kw (task request)) /\
    (forall kw ty,
       (kw, ty) ∈ capability_keywords ->
       occurs_in kw (task request) \/ keyword_matches kw (task request) ->
       exists st, st ∈ subtasks /\ type st = ty) /\
    (forall request' v,
       task request' = task request ->
       exists subtasks',
         result_of (plan_task request' v) = Ok subtasks' /\
         map draft_shape subtasks' = map draft_shape subtasks).
Proof.
  destruct (plan_task_run request w) as (subtasks & Hrun & Hty & Hdr).
  eexists subtasks, _. split; [exact Hrun |]. split; [reflexivity |].
  assert (Hm : forall kw ty, (kw, ty) ∈ capability_keywords ->
               keyword_matches kw (task request) ->
               ty ∈ map type subtasks).
  { intros kw ty Hin Hk. rewrite Hty.
    eapply planned_types_matches; [exact Hin |]. by apply contains_spec. }
  split; [| split].
  - intros -> kw ty Hin Hk. specialize (Hm kw ty Hin Hk). simpl in Hm.
    by apply elem_of_nil in Hm.
  - intros kw ty Hin Hocc.
    assert (Hk : keyword_matches kw (task request)).
    { destruct Hocc as [Hocc | Hk]; [| exact Hk].
      apply occurs_in_lower; [| exact Hocc].
      by eapply capability_keywords_lower. }
    specialize (Hm kw ty Hin Hk).
    apply list_elem_of_fmap in Hm as (st & -> & Hst). by exists st.
  - intros request' v Heq.
    destruct (plan_task_run request' v) as (subtasks' & Hrun' & Hty' & Hdr').
    exists subtasks'. split; [by rewrite Hrun' |].
    rewrite (draft_shape_of_type _ Hdr), (draft_shape_of_type _ Hdr').
    by rewrite Hty, Hty', Heq.
Qed.

(** C10.  Every draft the planner returns has status PENDING, progress
    0.0 and neither result nor error, no two drafts have the same
    capability type, and there are at most four drafts. *)
Theorem plan_task_drafts_initial (request : TaskRequest) (w : World) :
  exists subtasks,
    result_of (plan_task request w) = Ok subtasks /\
    Forall (fun st => status st = PENDING /\ progress st = 0%Q /\
                      result st = None /\ error st = None) subtasks /\
    NoDup (map type subtasks) /\
    (length subtasks <= 4)%nat.
Proof.
  destruct (plan_task_run request w) as (subtasks & Hrun & Hty & Hdr).
  exists subtasks. split; [by rewrite Hrun |]. split; [exact Hdr |].
  split.
  - rewrite Hty. apply planned_types_NoDup.
  - rewrite <- (length_map type), Hty. apply planned_types_length.
Qed.

(** ** Executing a task *)

Lemma progress_ratio_le (c c' n : nat) :
  (c <= c')%nat -> (progress_ratio c n <= progress_ratio c' n)%Q.
Proof.
  intros Hc. unfold progress_ratio. destruct (0 <? n)%nat; [| apply Qle_refl].
  rewrite !Qred_correct. unfold Qle. simpl. nia.
Qed.

Lemma progress_ratio_full (n : nat) :
  (0 < n)%nat -> progress_ratio n n = 1%Q.
Proof.
  intros Hn. unfold progress_ratio.
  destruct (Nat.ltb_spec 0 n) as [_|]; [| lia].
  change 1%Q with (Qred 1). apply Qred_complete.
  unfold Qeq. simpl. lia.
Qed.

Lemma progress_ratio_nonneg (c n : nat) : (0 <= progress_ratio c n)%Q.
Proof.
  unfold progress_ratio. destruct (0 <? n)%nat; [| apply Qle_refl].
  rewrite Qred_correct. unfold Qle. simpl. lia.
Qed.

Lemma count_completed_insert (l : list Subtask) (i : nat) (s s' : Subtask) :
  l !! i = Some s -> status s <> COMPLETED -> status s' = COMPLETED ->
  count_completed (<[i := s']> l) = S (count_completed l).
Proof.
  unfold count_completed. revert i.
  induction l as [|x l IH]; intros i Hi Hs Hs'; [done |].
  destruct i as [|i]; simpl in *.
  - inversion Hi; subst. rewrite filter_cons_True by done.
    by rewrite filter_cons_False by done.
  - rewrite !filter_cons. destruct (decide (status x = COMPLETED)); simpl;
      by rewrite (IH i).
Qed.

Lemma count_completed_all (l : list Subtask) :
  all_completed l = true -> count_completed l = length l.
Proof.
  unfold all_completed, count_completed.
  induction l as [|x l IH]; simpl; [done |].
  rewrite andb_true_iff, String.eqb_eq. intros [Hx Hl].
  rewrite filter_cons_True by done. simpl. by rewrite IH.
Qed.

Lemma all_completed_Forall (l : list Subtask) :
  all_completed l = true <-> Forall (fun s => status s = COMPLETED) l.
Proof.
  unfold all_completed. rewrite forallb_forall, Forall_forall.
  split; intros H x Hx.
  - apply String.eqb_eq, H. by apply list_elem_of_In.
  - apply String.eqb_eq, H. by apply list_elem_of_In.
Qed.

(** The three ways the loop body can go. *)
Lemma process_subtask_pending (tid : string) (t : Task) (i : nat) (s : Subtask) (w : World) :
  redis_up w = true ->
  t_subtasks t !! i = Some s ->
  status s = PENDING ->
  let s1 := mkSubtask (id s) (type s) IN_PROGRESS (result s) (error s) (progress s) in
  let t1 := mkTask (t_task_id t) (t_status t) (t_result t) (t_error t)
                   (t_progress t) (<[i := s1]> (t_subtasks t)) in
  let subs := <[i := finish_subtask s]> (t_subtasks t) in
  let t2 := mkTask (t_task_id t) (t_status t) (t_result t) (t_error t)
                   (progress_ratio (count_completed subs) (length subs)) subs in
  process_subtask tid t i w =
    (Ok t2,
     mkWorld true (<[redis_key tid := (Task_dict t2, None)]> (redis_db w))
             (clock w + 1) (uuid_src w) (uuid_next w) (task_queue w) (spawned w),
     [EvSleep t1; EvSet (redis_key tid) (Task_dict t2) None]).
Proof.
  intros Hup Hi Hs. unfold process_subtask, finish_subtask.
  rewrite Hi, Hs. simpl.
  unfold bind, asyncio_sleep, redis_set, notify_clients, ret. simpl.
  by rewrite Hup.
Qed.

Lemma process_subtask_skip (tid : string) (t : Task) (i : nat) (s : Subtask) (w : World) :
  t_subtasks t !! i = Some s ->
  status s <> PENDING ->
  process_subtask tid t i w = (Ok t, w, []).
Proof.
  intros Hi Hs. unfold process_subtask. rewrite Hi.
  apply String.eqb_neq in Hs. by rewrite Hs.
Qed.

Lemma process_subtask_none (tid : string) (t : Task) (i : nat) (w : World) :
  t_subtasks t !! i = None ->
  process_subtask tid t i w = (Ok t, w, []).
Proof. intros Hi. unfold process_subtask. by rewrite Hi. Qed.

Lemma finish_subtask_skip (s : Subtask) :
  status s <> PENDING -> finish_subtask s = s.
Proof.
  intros Hs. unfold finish_subtask. apply String.eqb_neq in Hs. by rewrite Hs.
Qed.

Lemma finish_subtask_status (s : Subtask) :
  status s = PENDING -> status (finish_subtask s) = COMPLETED.
Proof. intros Hs. unfold finish_subtask. by rewrite Hs. Qed.

(** Case analysis on one iteration of the loop, for the inductions below. *)
Lemma process_subtasks_cons (tid : string) (t : Task) (i : nat) (rest : list nat) (w : World) :
  redis_up w = true ->
  (exists s,
     t_subtasks t !! i = Some s /\ status s = PENDING /\
     exists t1 t2 w2,
       t1 = mkTask (t_task_id t) (t_status t) (t_result t) (t_error t) (t_progress t)
              (<[i := mkSubtask (id s) (type s) IN_PROGRESS (result s) (error s)
                                (progress s)]> (t_subtasks t)) /\
       t2 = mkTask (t_task_id t) (t_status t) (t_result t) (t_error t)
              (progress_ratio
                 (count_completed (<[i := finish_subtask s]> (t_subtasks t)))
                 (length (<[i := finish_subtask s]> (t_subtasks t))))
              (<[i := finish_subtask s]> (t_subtasks t)) /\
       redis_up w2 = true /\
       redis_db w2 = <[redis_key tid := (Task_dict t2, None)]> (redis_db w) /\
       process_subtasks tid t (i :: rest) w =
         (let '(r, w', evs) := process_subtasks tid t2 rest w2 in
          (r, w', EvSleep t1 :: EvSet (redis_key tid) (Task_dict t2) None :: evs)))
  \/
  ((forall s, t_subtasks t !! i = Some s -> status s <> PENDING) /\
   process_subtasks tid t (i :: rest) w = process_subtasks tid t rest w).
Proof.
  intros Hup. cbn [process_subtasks]. unfold bind.
  destruct (t_subtasks t !! i) as [s|] eqn:Hi.
  - destruct (decide (status s = PENDING)) as [Hs|Hs].
    + left. exists s. split; [done |]. split; [done |].
      rewrite (process_subtask_pending tid t i s w Hup Hi Hs).
      eexists _, _, _. split; [reflexivity |]. split; [reflexivity |].
      split; [| split]; [| | reflexivity]; reflexivity.
    + right. split; [intros s' [= <-]; done |].
      rewrite (process_subtask_skip tid t i s w Hi Hs).
      by destruct (process_subtasks tid t rest w) as [[r w'] evs].
  - right. split; [done |].
    rewrite (process_subtask_none tid t i w Hi).
    by destruct (process_subtasks tid t rest w) as [[r w'] evs].
Qed.

(** The loop always runs to its end when Redis is reachable; it leaves
    the task's identity, status, result and error alone. *)
Lemma process_subtasks_header (tid : string) (positions : list nat) :
  forall (t : Task) (w : World) r w' evs,
    redis_up w = true ->
    process_subtasks tid t positions w = (r, w', evs) ->
    exists t',
      r = Ok t' /\ redis_up w' = true /\
      t_task_id t' = t_task_id t /\ t_status t' = t_status t /\
      t_result t' = t_result t /\ t_error t' = t_error t /\
      length (t_subtasks t') = length (t_subtasks t).
Proof.
  induction positions as [|i rest IH]; intros t w r w' evs Hup Hrun.
  - inversion Hrun; subst. by exists t.
  - destruct (process_subtasks_cons tid t i rest w Hup)
      as [(s & Hi & Hs & t1 & t2 & w2 & -> & Ht2 & Hup2 & Hdb & Heq) | [_ Heq]];
      rewrite Heq in Hrun.
    + destruct (process_subtasks tid t2 rest w2) as [[r2 w2'] evs2] eqn:E.
      inversion Hrun; subst r w' evs.
      destruct (IH _ _ _ _ _ Hup2 E) as (t' & -> & ? & ? & ? & ? & ? & Hlen).
      exists t'. subst t2. simpl in *. rewrite length_insert in Hlen. done.
    + by apply (IH _ _ _ _ _ Hup Hrun).
Qed.

(** Progress never goes down along the loop. *)
Lemma process_subtasks_monotone (tid : string) (positions : list nat) :
  forall (t : Task) (w : World) r w' evs,
    redis_up w = true ->
    process_subtasks tid t positions w = (r, w', evs) ->
    (t_progress t <= progress_ratio (count_completed (t_subtasks t))
                                    (length (t_subtasks t)))%Q ->
    exists t',
      r = Ok t' /\
      (t_progress t' <= progress_ratio (count_completed (t_subtasks t'))
                                       (length (t_subtasks t')))%Q /\
      (t_progress t <= t_progress t')%Q /\
      StronglySorted Qle (map r_progress (stored_snapshots evs)) /\
      Forall (fun p => (t_progress t <= p)%Q /\ (p <= t_progress t')%Q)
             (map r_progress (stored_snapshots evs)).
Proof.
  induction positions as [|i rest IH]; intros t w r w' evs Hup Hrun HJ.
  - inversion Hrun; subst. exists t. simpl.
    repeat split; [done | apply Qle_refl | constructor | constructor].
  - destruct (process_subtasks_cons tid t i rest w Hup)
      as [(s & Hi & Hs & t1 & t2 & w2 & -> & Ht2 & Hup2 & Hdb & Heq) | [_ Heq]];
      rewrite Heq in Hrun.
    + destruct (process_subtasks tid t2 rest w2) as [[r2 w2'] evs2] eqn:E.
      inversion Hrun; subst r w' evs.
      assert (Hc : count_completed (t_subtasks t2) = S (count_completed (t_subtasks t))).
      { subst t2. simpl. apply (count_completed_insert _ _ s); [done | |].
        - rewrite Hs. discriminate.
        - by apply finish_subtask_status. }
      assert (Hp2 : t_progress t2 =
                    progress_ratio (count_completed (t_subtasks t2))
                                   (length (t_subtasks t2))).
      { by subst t2. }
      assert (Hle : (t_progress t <= t_progress t2)%Q).
      { eapply Qle_trans; [exact HJ |]. rewrite Hp2, Hc.
        replace (length (t_subtasks t2)) with (length (t_subtasks t))
          by (subst t2; simpl; by rewrite length_insert).
        apply progress_ratio_le. lia. }
      destruct (IH t2 w2 _ _ _ Hup2 E) as (t' & -> & HJ' & Hle' & Hsort & Hall).
      { rewrite Hp2. apply Qle_refl. }
      exists t'. split; [done |]. split; [done |].
      split; [by eapply Qle_trans |].
      simpl. split.
      * constructor; [done |].
        eapply Forall_impl; [exact Hall |]. by intros p [? _].
      * constructor.
        -- by replace (r_progress (Task_dict t2)) with (t_progress t2) by done.
        -- eapply Forall_impl; [exact Hall |]. intros p [? ?].
           split; [by eapply Qle_trans | done].
    + by apply (IH _ _ _ _ _ Hup Hrun).
Qed.

(** What an observer sees while the loop runs: at every suspension point
    the task object has the status it was loaded with and one sub-task in
    progress, and every snapshot written has that same status. *)
Lemma process_subtasks_observed (tid : string) (positions : list nat) :
  forall (t : Task) (w : World) r w' evs,
    redis_up w = true ->
    process_subtasks tid t positions w = (r, w', evs) ->
    Forall (fun u => t_status u = t_status t /\
                     exists s, s ∈ t_subtasks u /\ status s = IN_PROGRESS)
           (suspended_tasks evs) /\
    Forall (fun v => r_status v = t_status t) (stored_snapshots evs).
Proof.
  induction positions as [|i rest IH]; intros t w r w' evs Hup Hrun.
  - inversion Hrun; subst. split; constructor.
  - destruct (process_subtasks_cons tid t i rest w Hup)
      as [(s & Hi & Hs & t1 & t2 & w2 & Ht1 & Ht2 & Hup2 & Hdb & Heq) | [_ Heq]];
      rewrite Heq in Hrun.
    + destruct (process_subtasks tid t2 rest w2) as [[r2 w2'] evs2] eqn:E.
      injection Hrun as <- <- <-.
      destruct (IH t2 w2 _ _ _ Hup2 E) as [Hsus Hsto].
      replace (t_status t2) with (t_status t) in * by (by subst t2).
      simpl. split; constructor; try done.
      * subst t1. simpl. split; [done |].
        exists (mkSubtask (id s) (type s) IN_PROGRESS (result s) (error s) (progress s)).
        split; [| reflexivity].
        apply list_elem_of_lookup. exists i.
        apply list_lookup_insert_eq. by eapply lookup_lt_Some.
      * by subst t2.
    + by apply (IH _ _ _ _ _ Hup Hrun).
Qed.

(** The loop over all positions from [i] on: the sub-tasks end up as
    [finish_subtask] makes them, and the progress is the ratio of the
    completed ones as soon as one pending sub-task has been met. *)
Lemma process_subtasks_final (tid : string) (l0 : list Subtask) (k : nat) :
  forall (i : nat) (t : Task) (w : World) r w' evs,
    redis_up w = true ->
    (i + k = length l0)%nat ->
    t_subtasks t = map finish_subtask (take i l0) ++ drop i l0 ->
    process_subtasks tid t (seq i k) w = (r, w', evs) ->
    exists t',
      r = Ok t' /\
      t_subtasks t' = map finish_subtask l0 /\
      (t_progress t = progress_ratio (count_completed (t_subtasks t))
                                     (length (t_subtasks t)) \/
       (exists s, s ∈ drop i l0 /\ status s = PENDING) ->
       t_progress t' = progress_ratio (count_completed (t_subtasks t'))
                                      (length (t_subtasks t'))).
Proof.
  induction k as [|k IH]; intros i t w r w' evs Hup Hlen Hsub Hrun.
  - inversion Hrun; subst. exists t. split; [done |].
    rewrite Hsub, Nat.add_0_r in *.
    rewrite Hlen, firstn_all, drop_all, app_nil_r.
    split; [done |]. intros [H | (s & Hs & _)]; [| by apply elem_of_nil in Hs].
    by rewrite H.
  - assert (Hi : (i < length l0)%nat) by lia.
    destruct (lookup_lt_is_Some_2 l0 i Hi) as [s0 Hs0].
    assert (Hti : t_subtasks t !! i = Some s0).
    { rewrite Hsub, lookup_app_r; rewrite length_map, length_take_le by lia; [| lia].
      rewrite Nat.sub_diag, lookup_drop, Nat.add_0_r. done. }
    assert (Hnext : <[i := finish_subtask s0]> (t_subtasks t) =
                    map finish_subtask (take (S i) l0) ++ drop (S i) l0).
    { rewrite Hsub, (take_S_r _ _ _ Hs0), (drop_S _ _ _ Hs0), map_app. simpl.
      rewrite <- app_assoc. simpl.
      rewrite insert_app_r_alt; rewrite length_map, length_take_le by lia; [| lia].
      by rewrite Nat.sub_diag. }
    cbn [seq] in Hrun.
    destruct (process_subtasks_cons tid t i (seq (S i) k) w Hup)
      as [(s & Hi' & Hs & t1 & t2 & w2 & Ht1 & Ht2 & Hup2 & Hdb & Heq) | [Hskip Heq]];
      rewrite Heq in Hrun.
    + rewrite Hti in Hi'. inversion Hi'; subst s.
      destruct (process_subtasks tid t2 (seq (S i) k) w2) as [[r2 w2'] evs2] eqn:E.
      injection Hrun as <- <- <-.
      destruct (IH (S i) t2 w2 _ _ _ Hup2 ltac:(lia) ltac:(by subst t2) E)
        as (t' & -> & Hfin & Hprog).
      exists t'. split; [done |]. split; [done |].
      intros _. apply Hprog. left. by subst t2.
    + specialize (Hskip s0 Hti).
      rewrite finish_subtask_skip in Hnext by done.
      rewrite list_insert_id in Hnext by done.
      destruct (IH (S i) t w _ _ _ Hup ltac:(lia) Hnext Hrun)
        as (t' & -> & Hfin & Hprog).
      exists t'. split; [done |]. split; [done |].
      intros [H | (s & Hin & Hs)]; apply Hprog; [by left |].
      right. exists s. split; [| done].
      rewrite (drop_S _ _ _ Hs0) in Hin.
      apply elem_of_cons in Hin as [-> | Hin]; [done | done].
Qed.

(** [run_task] is the loop followed by the closing test. *)
Lemma run_task_run (tid : string) (t : Task) (w : World) :
  redis_up w = true ->
  exists t' w' evs,
    process_subtasks tid t (seq 0 (length (t_subtasks t))) w = (Ok t', w', evs) /\
    redis_up w' = true /\
    run_task tid t w =
      if all_completed (t_subtasks t') then
        let tc := mkTask (t_task_id t') COMPLETED (t_result t') (t_error t')
                         (t_progress t') (t_subtasks t') in
        (Ok tt,
         mkWorld true (<[redis_key tid := (Task_dict tc, None)]> (redis_db w'))
                 (clock w') (uuid_src w') (uuid_next w') (task_queue w') (spawned w'),
         evs ++ [EvSet (redis_key tid) (Task_dict tc) None])
      else (Ok tt, w', evs).
Proof.
  intros Hup. unfold run_task, bind.
  destruct (process_subtasks tid t _ w) as [[r w'] evs] eqn:E.
  destruct (process_subtasks_header _ _ _ _ _ _ _ Hup E) as (t' & -> & Hup' & _).
  exists t', w', evs. split; [done |]. split; [done |].
  unfold complete_task. destruct (all_completed (t_subtasks t')).
  - unfold redis_set. by rewrite Hup'.
  - unfold ret. by rewrite app_nil_r.
Qed.

(** ** The life of a submitted task *)

Lemma Subtask_of_dict_dict (s : Subtask) :
  Subtask_of_dict (Subtask_dict s) = Some s.
Proof. destruct s as [i ty st [r|] [e|] p]; reflexivity. Qed.

Lemma Subtasks_of_dicts_dict (l : list Subtask) :
  Subtasks_of_dicts (map Subtask_dict l) = Some l.
Proof.
  induction l as [|s l IH]; simpl; [done |].
  by rewrite IH, Subtask_of_dict_dict.
Qed.

Lemma submit_task_invalid (request : TaskRequest) (w : World) :
  task request = "" ->
  submit_task request w =
    (Raise (HTTPException 500 "Error submitting task: 400: Invalid task"), w, []).
Proof.
  intros H. unfold submit_task, try_except, bind, validate_task.
  rewrite H. reflexivity.
Qed.

Lemma submit_task_ok (request : TaskRequest) (w : World) :
  redis_up w = true ->
  task request <> "" ->
  exists subtasks,
    Forall is_draft subtasks /\
    map type subtasks = planned_types (task request) /\
    let tid := uuid_src w (uuid_next w) in
    submit_task request w =
      (Ok (submitted_response tid subtasks),
       mkWorld true
         (<[redis_key tid := (submitted_response tid subtasks,
                              Some (clock w + 604800))]> (redis_db w))
         (clock w) (uuid_src w) (S (uuid_next w) + length subtasks)%nat
         (task_queue w ++ [tid]) (spawned w ++ [tid]),
       [EvSet (redis_key tid) (submitted_response tid subtasks) (Some 604800)]).
Proof.
  intros Hup Hne.
  set (w1 := mkWorld (redis_up w) (redis_db w) (clock w) (uuid_src w)
                     (S (uuid_next w)) (task_queue w) (spawned w)).
  destruct (plan_task_run request w1) as (subtasks & Hrun & Hty & Hdr).
  exists subtasks. split; [done |]. split; [done |].
  unfold submit_task, try_except, bind, validate_task.
  apply String.eqb_neq in Hne. rewrite Hne. simpl.
  unfold bind, uuid4. fold w1. rewrite Hrun. simpl.
  unfold redis_set, queue_append, create_task, ret. simpl. rewrite Hup.
  reflexivity.
Qed.

Lemma submit_task_down (request : TaskRequest) (w : World) :
  redis_up w = false ->
  exists d w',
    submit_task request w = (Raise (HTTPException 500 d), w', []) /\
    redis_db w' = redis_db w /\ redis_up w' = false.
Proof.
  intros Hup.
  destruct (decide (task request = "")) as [He|Hne].
  { rewrite (submit_task_invalid _ _ He). by eexists _, _. }
  set (w1 := mkWorld (redis_up w) (redis_db w) (clock w) (uuid_src w)
                     (S (uuid_next w)) (task_queue w) (spawned w)).
  destruct (plan_task_run request w1) as (subtasks & Hrun & _).
  unfold submit_task, try_except, bind, validate_task.
  apply String.eqb_neq in Hne. rewrite Hne. simpl.
  unfold bind, uuid4. fold w1. rewrite Hrun. simpl.
  unfold redis_set. simpl. rewrite Hup. simpl.
  by eexists _, _.
Qed.

(** Either the submission is refused and nothing happens, or the new
    task is stored and its coroutine runs [run_task] on it. *)
Lemma task_lifetime_cases (request : TaskRequest) (w : World) :
  (exists e w', task_lifetime request w = (Raise e, w', []) /\
                redis_db w' = redis_db w)
  \/
  (exists subtasks w1,
     let tid := uuid_src w (uuid_next w) in
     redis_up w = true /\ task request <> "" /\
     redis_up w1 = true /\
     Forall is_draft subtasks /\
     map type subtasks = planned_types (task request) /\
     task_lifetime request w =
       (let '(r, w2, evs) := run_task tid (submitted_task tid subtasks) w1 in
        (r, w2,
         EvSet (redis_key tid) (submitted_response tid subtasks) (Some 604800)
         :: evs))).
Proof.
  destruct (redis_up w) eqn:Hup.
  - destruct (decide (task request = "")) as [He|Hne].
    + left. unfold task_lifetime, bind. rewrite (submit_task_invalid _ _ He).
      by eexists _, _.
    + right. destruct (submit_task_ok request w Hup Hne) as (subtasks & Hdr & Hty & Hsub).
      simpl in Hsub. eexists subtasks, _. cbn zeta.
      split; [done |]. split; [done |].
      split; [| split; [exact Hdr | split; [exact Hty |]]]; cycle 1.
      * unfold task_lifetime, bind. rewrite Hsub.
        unfold execute_task, bind, redis_get. simpl.
        rewrite lookup_insert_eq.
        replace (clock w <? clock w + 604800) with true
          by (symmetry; apply Z.ltb_lt; lia).
        simpl. rewrite Subtasks_of_dicts_dict. unfold submitted_task.
        lazymatch goal with
        | |- context [run_task ?a ?b ?c] =>
            instantiate (1 := c); destruct (run_task a b c) as [[r w2] evs]
        end.
        reflexivity.
      * reflexivity.
  - left. destruct (submit_task_down request w Hup) as (d & w' & Hsub & Hdb & _).
    unfold task_lifetime, bind. rewrite Hsub. by eexists _, _.
Qed.

Lemma stored_snapshots_app (evs evs' : list Event) :
  stored_snapshots (evs ++ evs') = stored_snapshots evs ++ stored_snapshots evs'.
Proof.
  induction evs as [|[t|key v ex] evs IH]; simpl; [done | done |].
  by rewrite IH.
Qed.

Lemma suspended_tasks_app (evs evs' : list Event) :
  suspended_tasks (evs ++ evs') = suspended_tasks evs ++ suspended_tasks evs'.
Proof.
  induction evs as [|[t|key v ex] evs IH]; simpl; [done | | done].
  by rewrite IH.
Qed.

Lemma StronglySorted_snoc {A} (R : A -> A -> Prop) (l : list A) (a : A) :
  StronglySorted R l -> Forall (fun x => R x a) l -> StronglySorted R (l ++ [a]).
Proof.
  induction 1 as [|x l Hl IH Hx]; intros Ha; simpl.
  - repeat constructor.
  - apply Forall_cons in Ha as [Hxa Ha]. constructor; [by apply IH |].
    apply Forall_app. split; [done |]. by constructor.
Qed.

Lemma drafts_finish (l : list Subtask) :
  Forall is_draft l -> all_completed (map finish_subtask l) = true.
Proof.
  intros H. apply all_completed_Forall, Forall_map.
  eapply Forall_impl; [exact H |]. intros s [Hs _]. simpl.
  by apply finish_subtask_status.
Qed.

(** The run of the coroutine on a freshly submitted task. *)
Lemma submitted_task_run (tid : string) (subtasks : list Subtask) (w1 : World) :
  redis_up w1 = true ->
  Forall is_draft subtasks ->
  exists t' w' evs,
    process_subtasks tid (submitted_task tid subtasks)
                     (seq 0 (length subtasks)) w1 = (Ok t', w', evs) /\
    t_task_id t' = tid /\ t_status t' = PENDING /\
    t_subtasks t' = map finish_subtask subtasks /\
    (subtasks <> [] -> t_progress t' = 1%Q) /\
    (subtasks = [] -> t_progress t' = 0%Q) /\
    run_task tid (submitted_task tid subtasks) w1 =
      (Ok tt,
       mkWorld true
         (<[redis_key tid :=
              (Task_dict (mkTask tid COMPLETED (t_result t') (t_error t')
                                 (t_progress t') (t_subtasks t')), None)]>
            (redis_db w'))
         (clock w') (uuid_src w') (uuid_next w') (task_queue w') (spawned w'),
       evs ++ [EvSet (redis_key tid)
                 (Task_dict (mkTask tid COMPLETED (t_result t') (t_error t')
                                    (t_progress t') (t_subtasks t'))) None]).
Proof.
  intros Hup Hdr.
  destruct (run_task_run tid (submitted_task tid subtasks) w1 Hup)
    as (t' & w' & evs & Hloop & Hup' & Hrun).
  simpl in Hloop, Hrun.
  destruct (process_subtasks_header _ _ _ _ _ _ _ Hup Hloop)
    as (t'' & [= <-] & _ & Hid & Hst & _).
  destruct (process_subtasks_final tid subtasks (length subtasks) 0
              (submitted_task tid subtasks) w1 _ _ _ Hup eq_refl eq_refl Hloop)
    as (t'' & [= <-] & Hfin & Hprog).
  assert (Hall : all_completed (t_subtasks t') = true).
  { rewrite Hfin. by apply drafts_finish. }
  exists t', w', evs. simpl in Hid, Hst.
  split; [done |]. split; [done |]. split; [done |]. split; [done |].
  split; [| split].
  - intros Hne. rewrite Hprog.
    + rewrite (count_completed_all _ Hall). apply progress_ratio_full.
      rewrite Hfin, length_map. destruct subtasks; [done | simpl; lia].
    + right. destruct subtasks as [|s l]; [done |].
      exists s. split; [simpl; left |].
      by apply Forall_cons in Hdr as [[? _] _].
  - intros ->. simpl in Hloop. by injection Hloop as <- _ _.
  - rewrite Hrun, Hall, Hid. reflexivity.
Qed.

(** The two proof steps shared by the statements about one life: the
    case split of [task_lifetime_cases], and, in the accepted case, the
    run of the coroutine as [submitted_task_run] describes it. *)
Ltac lifetime_cases request w :=
  destruct (task_lifetime_cases request w)
    as [(e & w' & Hl & _) | (subtasks & w1 & _ & _ & Hup1 & Hdr & Hty & Hl)].

Ltac accepted_run w :=
  match goal with
  | Hl : task_lifetime _ w = _,
    Hup1 : redis_up ?w1 = true,
    Hdr : Forall is_draft ?subtasks |- _ =>
      cbn zeta in Hl;
      destruct (submitted_task_run (uuid_src w (uuid_next w)) subtasks w1 Hup1 Hdr)
        as (t' & w' & evs & Hloop & Hid & Hst & Hsub & Hp1 & Hp0 & Hrun);
      match goal with
      | Hr : run_task _ _ w1 = _ |- _ => rewrite Hr in Hl
      end
  end.

Lemma map_finish_dict_status (l : list Subtask) :
  all_completed l = true ->
  Forall (fun d => dict_status d = Some COMPLETED) (map Subtask_dict l).
Proof.
  intros H. apply all_completed_Forall in H. apply Forall_map.
  eapply Forall_impl; [exact H |]. intros s Hs. simpl.
  unfold dict_status, required_str. simpl. by rewrite Hs.
Qed.

(** C1, as the code has it.  For every task that is accepted (Redis
    reachable, description not empty), the run of its coroutine ends
    normally and leaves in the store a record with status COMPLETED, all
    of whose sub-tasks are COMPLETED, with one sub-task per planned
    capability type; its progress is 1.0 whenever the task has at least
    one sub-task. *)
Theorem submitted_task_completes (request : TaskRequest) (w : World) :
  redis_up w = true ->
  task request <> "" ->
  exists w' evs v,
    task_lifetime request w = (Ok tt, w', evs) /\
    redis_db w' !! redis_key (uuid_src w (uuid_next w)) = Some (v, None) /\
    r_status v = COMPLETED /\
    length (r_subtasks v) = length (planned_types (task request)) /\
    Forall (fun d => dict_status d = Some COMPLETED) (r_subtasks v) /\
    (r_subtasks v <> [] -> r_progress v = 1%Q).
Proof.
  intros Hup Hne.
  lifetime_cases request w.
  { exfalso. unfold task_lifetime, bind in Hl.
    destruct (submit_task_ok request w Hup Hne) as (l & _ & _ & Hs).
    simpl in Hs. rewrite Hs in Hl.
    destruct (execute_task _ _) as [[r w2] evs2]. discriminate. }
  accepted_run w. eexists _, _, _. split; [exact Hl |].
  split; [simpl; by rewrite lookup_insert_eq |]. split; [done |].
  split; [simpl; by rewrite Hsub, !length_map, <- Hty, length_map |].
  simpl. split.
  - apply map_finish_dict_status. rewrite Hsub. by apply drafts_finish.
  - intros Hne'. apply Hp1. intros ->. apply Hne'. by rewrite Hsub.
Qed.

(** C1 as stated fails for a task without sub-tasks: the description
    "hello" matches no keyword, the task ends COMPLETED, and its progress
    is 0, not 1. *)
Lemma empty_task_completes_at_progress_zero :
  let out := task_lifetime (sample_request "hello") sample_world in
  let v := mkTaskResponse "id-0" COMPLETED None None 0 [] in
  result_of out = Ok tt /\
  redis_db (world_of out) !! redis_key "id-0" = Some (v, None) /\
  r_status v = COMPLETED /\
  Forall (fun d => dict_status d = Some COMPLETED) (r_subtasks v) /\
  ~ (r_progress v == 1)%Q.
Proof.
  cbn zeta. split; [by vm_compute |]. split; [by vm_compute |].
  split; [done |]. split; [constructor |]. by vm_compute.
Qed.

(** C2.  Over the life of every task, the progress values of the
    snapshots that the orchestrator writes to the store, taken in the
    order they are written (the record stored at submission first), never
    decrease. *)
Theorem task_progress_monotone (request : TaskRequest) (w : World) :
  StronglySorted Qle
    (map r_progress (stored_snapshots (events_of (task_lifetime request w)))).
Proof.
  lifetime_cases request w.
  { rewrite Hl. constructor. }
  accepted_run w. rewrite Hl. unfold events_of. simpl.
  destruct (process_subtasks_monotone _ _ _ _ _ _ _ Hup1 Hloop)
    as (t'' & [= <-] & _ & Hle & Hsort & Hall).
  { simpl. apply progress_ratio_nonneg. }
  simpl in Hle, Hall.
  rewrite stored_snapshots_app, map_app. simpl.
  constructor.
  - apply StronglySorted_snoc; [done |].
    eapply Forall_impl; [exact Hall |]. by intros p [_ ?].
  - apply Forall_app. split.
    + eapply Forall_impl; [exact Hall |]. by intros p [? _].
    + by constructor.
Qed.

(** C3, as the code has it.  Over the life of every task, a snapshot
    written with status COMPLETED has all its sub-tasks COMPLETED, and its
    progress is 1 if the task has at least one sub-task. *)
Theorem completed_snapshot_invariant (request : TaskRequest) (w : World)
    (v : TaskResponse) :
  v ∈ stored_snapshots (events_of (task_lifetime request w)) ->
  r_status v = COMPLETED ->
  Forall (fun d => dict_status d = Some COMPLETED) (r_subtasks v) /\
  (r_subtasks v <> [] -> r_progress v = 1%Q).
Proof.
  intros Hin Hv.
  lifetime_cases request w.
  { rewrite Hl in Hin. by apply elem_of_nil in Hin. }
  accepted_run w. rewrite Hl in Hin. unfold events_of in Hin. simpl in Hin.
  destruct (process_subtasks_observed _ _ _ _ _ _ _ Hup1 Hloop) as [_ Hsto].
  rewrite stored_snapshots_app in Hin. simpl in Hin.
  apply elem_of_cons in Hin as [-> | Hin]; [discriminate Hv |].
  apply elem_of_app in Hin as [Hin | Hin].
  { rewrite Forall_forall in Hsto. apply Hsto in Hin.
    simpl in Hin. rewrite Hin in Hv. discriminate. }
  apply list_elem_of_singleton in Hin as ->. simpl.
  split.
  - apply map_finish_dict_status. rewrite Hsub. by apply drafts_finish.
  - intros Hne. apply Hp1. intros ->. apply Hne. by rewrite Hsub.
Qed.

(** C3 as stated fails on the empty sub-task set it singles out: the
    task submitted as "hello" is written with status COMPLETED while its
    progress is 0. *)
Lemma completed_snapshot_with_progress_zero :
  let v := mkTaskResponse "id-0" COMPLETED None None 0 [] in
  v ∈ stored_snapshots
        (events_of (task_lifetime (sample_request "hello") sample_world)) /\
  r_status v = COMPLETED /\ r_subtasks v = [] /\ ~ (r_progress v == 1)%Q.
Proof.
  cbn zeta. split; [| split; [done | split; [done | by vm_compute]]].
  vm_compute. apply list_elem_of_In. right. by left.
Qed.

(** C4, as the code has it.  The orchestrator never gives a task the
    status IN_PROGRESS.  Over the life of every task, at each instant at
    which one of its sub-tasks is in progress the task's own status is
    still PENDING, and every snapshot written to the store has status
    PENDING or COMPLETED. *)
Theorem task_status_stays_pending (request : TaskRequest) (w : World) :
  (forall u, u ∈ suspended_tasks (events_of (task_lifetime request w)) ->
             t_status u = PENDING /\
             exists s, s ∈ t_subtasks u /\ status s = IN_PROGRESS) /\
  (forall v, v ∈ stored_snapshots (events_of (task_lifetime request w)) ->
             r_status v = PENDING \/ r_status v = COMPLETED).
Proof.
  lifetime_cases request w.
  { rewrite Hl. split; intros x Hx; by apply elem_of_nil in Hx. }
  accepted_run w. rewrite Hl. unfold events_of. simpl.
  destruct (process_subtasks_observed _ _ _ _ _ _ _ Hup1 Hloop) as [Hsus Hsto].
  simpl in Hsus, Hsto. rewrite Forall_forall in Hsus. rewrite Forall_forall in Hsto.
  rewrite suspended_tasks_app, stored_snapshots_app. simpl.
  rewrite app_nil_r. split.
  - intros u Hu. by apply Hsus.
  - intros v Hv. apply elem_of_cons in Hv as [-> | Hv]; [by left |].
    apply elem_of_app in Hv as [Hv | Hv].
    + left. by apply Hsto.
    + right. by apply list_elem_of_singleton in Hv as ->.
Qed.

(** C4 as stated fails: while the only sub-task of the task submitted as
    "research" is IN_PROGRESS, the task itself is PENDING. *)
Lemma task_pending_while_subtask_in_progress :
  let s := mkSubtask "id-1" WEB_RESEARCH IN_PROGRESS None None 0 in
  let u := mkTask "id-0" PENDING None None 0 [s] in
  u ∈ suspended_tasks
        (events_of (task_lifetime (sample_request "research") sample_world)) /\
  s ∈ t_subtasks u /\ status s = IN_PROGRESS /\
  t_status u = PENDING /\ t_status u <> IN_PROGRESS.
Proof.
  cbn zeta. split; [| split; [by left | done]].
  vm_compute. apply list_elem_of_In. by left.
Qed.

(** ** The endpoints and their error reports *)

(** C6.  The code and the claim part ways on an empty description.  The
    request is refused before planning and nothing is created: the world,
    its store and its id source are unchanged and nothing is written.  But
    the 400 "Invalid task" raised for it is caught by the handler's own
    [except Exception] clause and replaced by a 500, so the caller is told
    of a retryable server error, not of a validation error. *)
Theorem empty_description_rejection (ctx : JDict) (prio : Z)
    (agent : option string) (w : World) :
  let out := submit_task (mkTaskRequest "" ctx prio agent) w in
  world_of out = w /\ events_of out = [] /\
  result_of out =
    Raise (HTTPException 500 "Error submitting task: 400: Invalid task") /\
  Api.submitTask_error (http_response (result_of out)) =
    Some (Api.mkApiErrorResponse "Error submitting task: 400: Invalid task"
            Api.SERVER_ERROR (Some 500) true).
Proof.
  cbn zeta. rewrite submit_task_invalid by done. by vm_compute.
Qed.

(** The front end tells the failures apart when the server sends the
    statuses it expects: 400 is a validation error, 503 with a storage
    detail is the storage outage, 404 is neither, and every 500 is a
    server error. *)
Lemma handleApiError_by_status (d : string) :
  Api.type (Api.handleApiError
              (Api.AxiosWithResponse 400 (Api.mkErrorData (Some d) None)) "") =
    Api.VALIDATION_ERROR /\
  Api.type (Api.handleApiError
              (Api.AxiosWithResponse 404 (Api.mkErrorData (Some d) None)) "") =
    Api.UNKNOWN_ERROR /\
  Api.type (Api.handleApiError
              (Api.AxiosWithResponse 503
                 (Api.mkErrorData (Some "Redis unavailable") None)) "") =
    Api.REDIS_UNAVAILABLE /\
  Api.type (Api.handleApiError
              (Api.AxiosWithResponse 500 (Api.mkErrorData (Some d) None)) "") =
    Api.SERVER_ERROR.
Proof. repeat split. Qed.

Lemma redis_get_up (key : string) (w : World) :
  redis_up w = true ->
  redis_get key w = (Ok (stored_value w key), w, []).
Proof.
  intros Hup. unfold redis_get, stored_value. rewrite Hup.
  destruct (redis_db w !! key) as [[v [e|]]|]; [| done | done].
  by destruct (clock w <? e).
Qed.

(** C7.  The code and the claim part ways on the failure signals.  A
    known id gives the stored snapshot.  For an unknown or expired id the
    404 "Task not found" is caught by the handler's own [except Exception]
    clause and replaced by a 500; an unreachable store gives a 500 as
    well.  The caller sees the same status and the same error type in both
    cases. *)
Theorem get_task_status_signals (tid : string) (w : World) :
  let out := get_task_status tid w in
  (forall r subs,
     redis_up w = true ->
     stored_value w (redis_key tid) = Some r ->
     Subtasks_of_dicts (r_subtasks r) = Some subs ->
     out = (Ok (loaded_task r subs), w, [])) /\
  (redis_up w = true ->
   stored_value w (redis_key tid) = None ->
   out = (Raise (HTTPException 500 "404: Task not found"), w, []) /\
   Api.getTaskStatus_error (http_response (result_of out)) =
     Some (Api.mkApiErrorResponse "404: Task not found"
             Api.SERVER_ERROR (Some 500) true)) /\
  (redis_up w = false ->
   out = (Raise (HTTPException 500 "Error connecting to redis"), w, []) /\
   Api.getTaskStatus_error (http_response (result_of out)) =
     Some (Api.mkApiErrorResponse "Error connecting to redis"
             Api.SERVER_ERROR (Some 500) true)).
Proof.
  cbn zeta. unfold get_task_status, try_except, bind.
  split; [| split].
  - intros r subs Hup Hr Hsubs. rewrite (redis_get_up _ _ Hup), Hr, Hsubs.
    reflexivity.
  - intros Hup Hr. rewrite (redis_get_up _ _ Hup), Hr. simpl.
    split; [reflexivity | by vm_compute].
  - intros Hup. unfold redis_get. rewrite Hup. simpl.
    split; [reflexivity | by vm_compute].
Qed.

Lemma get_task_status_signals_witness :
  get_task_status "no-such-task" sample_world =
    (Raise (HTTPException 500 "404: Task not found"), sample_world, []) /\
  get_task_status "no-such-task" sample_world_down =
    (Raise (HTTPException 500 "Error connecting to redis"), sample_world_down, []).
Proof.
  split.
  - apply (get_task_status_signals "no-such-task" sample_world);
      [reflexivity | by vm_compute].
  - apply (get_task_status_signals "no-such-task" sample_world_down).
    reflexivity.
Defined.

(** ** Dependencies between sub-tasks *)









(** ** Replay *)





(** ** The theorems at sample inputs *)

Lemma plan_task_keyword_coverage_witness :
  exists subtasks,
    result_of (plan_task (sample_request "Write code") sample_world) = Ok subtasks /\
    exists st, st ∈ subtasks /\ type st = CODE_GENERATION.
Proof.
  destruct (plan_task_keyword_coverage (sample_request "Write code") sample_world)
    as (subtasks & w' & Hrun & _ & _ & Hcov & _).
  exists subtasks. split; [by rewrite Hrun |].
  apply (Hcov "code").
  - right. left.
  - left. by exists "Write ", "".
Defined.

Lemma submitted_task_completes_witness :
  exists w' evs v,
    task_lifetime (sample_request "research") sample_world = (Ok tt, w', evs) /\
    redis_db w' !! redis_key "id-0" = Some (v, None) /\
    r_status v = COMPLETED /\
    length (r_subtasks v) = length (planned_types "research") /\
    Forall (fun d => dict_status d = Some COMPLETED) (r_subtasks v) /\
    (r_subtasks v <> [] -> r_progress v = 1%Q).
Proof.
  apply (submitted_task_completes (sample_request "research") sample_world);
    [reflexivity | discriminate].
Defined.

Lemma completed_snapshot_invariant_witness :
  Forall (fun d => dict_status d = Some COMPLETED) (r_subtasks sample_completed) /\
  (r_subtasks sample_completed <> [] -> r_progress sample_completed = 1%Q).
Proof.
  apply (completed_snapshot_invariant (sample_request "research") sample_world);
    [| reflexivity].
  apply list_elem_of_In. vm_compute. right. right. by left.
Defined.

Lemma task_status_stays_pending_witness :
  t_status sample_suspended = PENDING /\
  exists s, s ∈ t_subtasks sample_suspended /\ status s = IN_PROGRESS.
Proof.
  apply (task_status_stays_pending (sample_request "research") sample_world).
  apply list_elem_of_In. vm_compute. by left.
Defined.

(* ===================================================================== *)
(** * Further properties of the orchestrator *)
(* ===================================================================== *)

(** ** Records and their reload *)

(** X1.  What [task.dict()] writes is read back unchanged: the
    sub-task dictionaries of a stored task object are all accepted by the
    Subtask model, and the task object rebuilt from the record is the one
    that was written. *)
Theorem stored_task_reloads (t : Task) :
  exists subs,
    Subtasks_of_dicts (r_subtasks (Task_dict t)) = Some subs /\
    loaded_task (Task_dict t) subs = t.
Proof.
  exists (t_subtasks t). split.
  - apply Subtasks_of_dicts_dict.
  - by destruct t.
Qed.

(** X2.  A dictionary that lacks one of the required keys id, type and
    status is refused by the Subtask model, whatever else it holds, and a
    record with such a sub-task makes [execute_task] raise before it writes
    or dispatches anything; [get_task_status] answers 500 for it. *)
Theorem malformed_subtask_refused (tid : string) (w : World) (r : TaskResponse)
    (d : JDict) (k : string) :
  k ∈ ["id"; "type"; "status"] ->
  dict_get k d = None ->
  d ∈ r_subtasks r ->
  redis_up w = true ->
  stored_value w (redis_key tid) = Some r ->
  Subtask_of_dict d = None /\
  execute_task tid w =
    (Raise (ValidationError "validation error for Subtask"), w, []) /\
  get_task_status tid w =
    (Raise (HTTPException 500 "validation error for Subtask"), w, []).
Proof.
  intros Hk Hd Hin Hup Hr.
  assert (Hnone : Subtask_of_dict d = None).
  { unfold Subtask_of_dict, required_str.
    rewrite !elem_of_cons, elem_of_nil in Hk.
    destruct Hk as [-> | [-> | [-> | []]]]; rewrite Hd; simpl.
    - done.
    - by destruct (dict_get "id" d) as [[]|].
    - destruct (dict_get "id" d) as [[]|]; try done;
        by destruct (dict_get "type" d) as [[]|]. }
  assert (Hall : Subtasks_of_dicts (r_subtasks r) = None).
  { induction (r_subtasks r) as [|x l IH]; [by apply elem_of_nil in Hin |].
    apply elem_of_cons in Hin as [<- | Hin]; simpl.
    - by rewrite Hnone.
    - rewrite (IH Hin). by destruct (Subtask_of_dict x). }
  split; [done |]. split.
  - unfold execute_task, bind. by rewrite (redis_get_up _ _ Hup), Hr, Hall.
  - unfold get_task_status, try_except, bind.
    by rewrite (redis_get_up _ _ Hup), Hr, Hall.
Qed.

(** ** The loop of [execute_task], once more *)

(** One iteration, with the world it leaves. *)
Lemma process_subtasks_step (tid : string) (t : Task) (i : nat) (rest : list nat) (w : World) :
  redis_up w = true ->
  (exists s,
     t_subtasks t !! i = Some s /\ status s = PENDING /\
     let t1 := mkTask (t_task_id t) (t_status t) (t_result t) (t_error t) (t_progress t)
                 (<[i := mkSubtask (id s) (type s) IN_PROGRESS (result s) (error s)
                                   (progress s)]> (t_subtasks t)) in
     let subs := <[i := finish_subtask s]> (t_subtasks t) in
     let t2 := mkTask (t_task_id t) (t_status t) (t_result t) (t_error t)
                 (progress_ratio (count_completed subs) (length subs)) subs in
     let w2 := mkWorld true (<[redis_key tid := (Task_dict t2, None)]> (redis_db w))
                 (clock w + 1) (uuid_src w) (uuid_next w) (task_queue w) (spawned w) in
     process_subtasks tid t (i :: rest) w =
       (let '(r, w', evs) := process_subtasks tid t2 rest w2 in
        (r, w', EvSleep t1 :: EvSet (redis_key tid) (Task_dict t2) None :: evs)))
  \/
  ((forall s, t_subtasks t !! i = Some s -> status s <> PENDING) /\
   process_subtasks tid t (i :: rest) w = process_subtasks tid t rest w).
Proof.
  intros Hup. cbn [process_subtasks]. unfold bind.
  destruct (t_subtasks t !! i) as [s|] eqn:Hi.
  - destruct (decide (status s = PENDING)) as [Hs|Hs].
    + left. exists s. split; [done |]. split; [done |]. cbn zeta.
      by rewrite (process_subtask_pending tid t i s w Hup Hi Hs).
    + right. split; [intros s' [= <-]; done |].
      rewrite (process_subtask_skip tid t i s w Hi Hs).
      by destruct (process_subtasks tid t rest w) as [[r w'] evs].
  - right. split; [done |].
    rewrite (process_subtask_none tid t i w Hi).
    by destruct (process_subtasks tid t rest w) as [[r w'] evs].
Qed.

(** What the loop leaves alone, what it costs, and what it leaves in the
    store. *)
Lemma process_subtasks_frame (tid : string) (positions : list nat) :
  forall (t : Task) (w : World) r w' evs,
    redis_up w = true ->
    process_subtasks tid t positions w = (r, w', evs) ->
    uuid_src w' = uuid_src w /\ uuid_next w' = uuid_next w /\
    task_queue w' = task_queue w /\ spawned w' = spawned w /\
    clock w' = clock w + Z.of_nat (length (suspended_tasks evs)) /\
    length (stored_snapshots evs) = length (suspended_tasks evs) /\
    (forall key, key <> redis_key tid -> redis_db w' !! key = redis_db w !! key) /\
    ((evs = [] /\ w' = w /\ r = Ok t) \/
     (exists t', r = Ok t' /\
                 redis_db w' !! redis_key tid = Some (Task_dict t', None))).
Proof.
  induction positions as [|i rest IH]; intros t w r w' evs Hup Hrun.
  - injection Hrun as <- <- <-. simpl. rewrite Z.add_0_r.
    repeat split; try done. by left.
  - destruct (process_subtasks_step tid t i rest w Hup)
      as [(s & Hi & Hs & Heq) | [_ Heq]]; rewrite Heq in Hrun; clear Heq.
    + cbn zeta in Hrun.
      match type of Hrun with
      | context [process_subtasks tid ?t2 rest ?w2] =>
          destruct (process_subtasks tid t2 rest w2) as [[r2 w2'] evs2] eqn:E;
          destruct (IH t2 w2 _ _ _ eq_refl E)
            as (H1 & H2 & H3 & H4 & H5 & H6 & H7 & H8)
      end.
      injection Hrun as <- <- <-. simpl in *.
      repeat split; try done.
      * rewrite H5. lia.
      * by rewrite H6.
      * intros key Hkey. rewrite (H7 key Hkey). by rewrite lookup_insert_ne.
      * right. destruct H8 as [(-> & -> & ->) | (t' & -> & Hdb)].
        -- eexists. split; [done |]. simpl. by rewrite lookup_insert_eq.
        -- by exists t'.
    + by apply (IH _ _ _ _ _ Hup Hrun).
Qed.

Lemma process_subtasks_no_pending (tid : string) (positions : list nat) (t : Task) (w : World) :
  (forall s, s ∈ t_subtasks t -> status s <> PENDING) ->
  process_subtasks tid t positions w = (Ok t, w, []).
Proof.
  intros Hno. induction positions as [|i rest IH]; [done |].
  cbn [process_subtasks]. unfold bind.
  destruct (t_subtasks t !! i) as [s|] eqn:Hi.
  - rewrite (process_subtask_skip tid t i s w Hi).
    + by rewrite IH.
    + apply Hno. by eapply list_elem_of_lookup_2.
  - rewrite (process_subtask_none tid t i w Hi). by rewrite IH.
Qed.

Lemma filter_none {A} (P : A -> Prop) `{forall x, Decision (P x)} (l : list A) :
  (forall x, x ∈ l -> ~ P x) -> filter P l = [].
Proof.
  induction l as [|x l IH]; intros Hno; [done |].
  rewrite filter_cons_False by (apply Hno; left).
  apply IH. intros y Hy. apply Hno. by right.
Qed.

Lemma in_progress_insert (l : list Subtask) (i : nat) (s s' : Subtask) :
  l !! i = Some s ->
  (forall x, x ∈ l -> status x <> IN_PROGRESS) ->
  status s' = IN_PROGRESS ->
  filter (fun st => status st = IN_PROGRESS) (<[i := s']> l) = [s'].
Proof.
  revert i. induction l as [|x l IH]; intros i Hi Hno Hs'; [done |].
  assert (Hl : filter (fun st => status st = IN_PROGRESS) l = []).
  { apply filter_none. intros y Hy. apply Hno. by right. }
  destruct i as [|i]; simpl in *.
  - rewrite filter_cons_True by done. by rewrite Hl.
  - rewrite filter_cons_False by (apply Hno; left).
    apply (IH i); [done | | done]. intros y Hy. apply Hno. by right.
Qed.

Lemma elem_of_insert_inv {A} (l : list A) (i : nat) (x y : A) :
  y ∈ <[i := x]> l -> y = x \/ y ∈ l.
Proof.
  intros Hy. apply list_elem_of_lookup in Hy as [j Hj].
  destruct (decide (i = j)) as [<- | Hne].
  - destruct (decide (i < length l)%nat) as [Hlt | Hge].
    + rewrite list_lookup_insert_eq in Hj by done. left. congruence.
    + rewrite list_insert_ge in Hj by lia. right. by eapply list_elem_of_lookup_2.
  - rewrite list_lookup_insert_ne in Hj by done.
    right. by eapply list_elem_of_lookup_2.
Qed.

(** The loop on a task whose sub-tasks from position [i] on are all
    pending and none of whose sub-tasks is in progress. *)
Lemma process_subtasks_all_pending (tid : string) (k : nat) :
  forall (i : nat) (t : Task) (w : World) r w' evs,
    redis_up w = true ->
    (i + k = length (t_subtasks t))%nat ->
    (forall j s, (i <= j)%nat -> t_subtasks t !! j = Some s -> status s = PENDING) ->
    (forall s, s ∈ t_subtasks t -> status s <> IN_PROGRESS) ->
    process_subtasks tid t (seq i k) w = (r, w', evs) ->
    length (suspended_tasks evs) = k /\
    Forall (fun u => length (in_progress_subtasks u) = 1%nat) (suspended_tasks evs) /\
    map r_progress (stored_snapshots evs) =
      map (fun m => progress_ratio (count_completed (t_subtasks t) + m)
                                   (length (t_subtasks t)))
          (seq 1 k).
Proof.
  induction k as [|k IH]; intros i t w r w' evs Hup Hlen Hpend Hnoip Hrun.
  - injection Hrun as <- <- <-. by repeat split.
  - assert (Hi : (i < length (t_subtasks t))%nat) by lia.
    destruct (lookup_lt_is_Some_2 _ i Hi) as [s0 Hs0].
    pose proof (Hpend i s0 (Nat.le_refl i) Hs0) as Hst0.
    cbn [seq] in Hrun.
    destruct (process_subtasks_step tid t i (seq (S i) k) w Hup)
      as [(s & Hi' & Hs & Heq) | [Hskip _]]; [| by destruct (Hskip s0 Hs0)].
    rewrite Heq in Hrun; clear Heq. cbn zeta in Hrun.
    rewrite Hs0 in Hi'. injection Hi' as <-.
    match type of Hrun with
    | context [process_subtasks tid ?t2 _ ?w2] =>
        set (W2 := w2) in *; set (T2 := t2) in *
    end.
    assert (Hlen2 : (S i + k = length (t_subtasks T2))%nat).
    { subst T2. simpl. rewrite length_insert. lia. }
    assert (Hpend2 : forall j s, (S i <= j)%nat -> t_subtasks T2 !! j = Some s ->
                                 status s = PENDING).
    { subst T2. simpl. intros j s Hj Hjs.
      rewrite list_lookup_insert_ne in Hjs by lia.
      apply (Hpend j s); [lia | done]. }
    assert (Hnoip2 : forall s, s ∈ t_subtasks T2 -> status s <> IN_PROGRESS).
    { subst T2. simpl. intros s Hin. apply elem_of_insert_inv in Hin as [-> | Hin].
      - rewrite (finish_subtask_status _ Hst0). discriminate.
      - by apply Hnoip. }
    destruct (process_subtasks tid T2 (seq (S i) k) W2) as [[r2 w2'] evs2] eqn:E.
    destruct (IH (S i) T2 W2 _ _ _ eq_refl Hlen2 Hpend2 Hnoip2 E) as (H1 & H2 & H3).
    injection Hrun as <- <- <-. simpl.
    split; [by rewrite H1 |]. split.
    + constructor; [| done]. unfold in_progress_subtasks. simpl.
      by rewrite (in_progress_insert _ _ s0).
    + rewrite H3. subst T2. simpl. rewrite length_insert.
      rewrite (count_completed_insert _ _ s0); [| done | | by apply finish_subtask_status].
      2: { rewrite Hst0. discriminate. }
      f_equal; [f_equal; lia |].
      rewrite <- (fmap_S_seq 1 k), <- list_fmap_compose.
      apply list_fmap_ext. intros _ m _. simpl. f_equal. lia.
Qed.

(** A sub-task that is not pending stays in the list, untouched, through
    the whole loop and in every snapshot written. *)
Lemma process_subtasks_keeps (tid : string) (s : Subtask) (positions : list nat) :
  status s <> PENDING ->
  forall (t : Task) (w : World) r w' evs,
    redis_up w = true ->
    s ∈ t_subtasks t ->
    process_subtasks tid t positions w = (r, w', evs) ->
    Forall (fun v => Subtask_dict s ∈ r_subtasks v) (stored_snapshots evs).
Proof.
  intros Hs. induction positions as [|i rest IH]; intros t w r w' evs Hup Hin Hrun.
  - injection Hrun as <- <- <-. constructor.
  - destruct (process_subtasks_step tid t i rest w Hup)
      as [(s0 & Hi & Hs0 & Heq) | [_ Heq]]; rewrite Heq in Hrun; clear Heq.
    + cbn zeta in Hrun.
      assert (Hin2 : s ∈ <[i := finish_subtask s0]> (t_subtasks t)).
      { apply list_elem_of_lookup in Hin as [j Hj].
        apply list_elem_of_lookup. exists j.
        rewrite list_lookup_insert_ne; [done |].
        intros <-. rewrite Hi in Hj. injection Hj as ->. done. }
      match type of Hrun with
      | context [process_subtasks tid ?t2 rest ?w2] =>
          destruct (process_subtasks tid t2 rest w2) as [[r2 w2'] evs2] eqn:E;
          pose proof (IH t2 w2 _ _ _ eq_refl Hin2 E) as Hrest
      end.
      injection Hrun as <- <- <-. simpl.
      constructor; [| done]. simpl.
      apply list_elem_of_fmap. by exists s.
    + by apply (IH _ _ _ _ _ Hup Hin Hrun).
Qed.

(** ** The whole life of a task, in detail *)

Lemma drafts_finished (l : list Subtask) :
  Forall is_draft l -> Forall is_finished (map finish_subtask l).
Proof.
  intros H. apply Forall_map. eapply Forall_impl; [exact H |].
  intros s (Hs & Hp & Hr & He). unfold finish_subtask. rewrite Hs. simpl.
  by repeat split.
Qed.

Lemma map_finish_type (l : list Subtask) :
  map type (map finish_subtask l) = map type l /\
  map id (map finish_subtask l) = map id l.
Proof.
  rewrite !map_map. split; apply map_ext; intros s; unfold finish_subtask;
    by destruct (String.eqb (status s) PENDING).
Qed.

(** The accepted case, step by step: what [submit_task] returns and
    leaves, the run of the loop from there, and the end of the life. *)
Lemma lifetime_final (request : TaskRequest) (w : World) :
  redis_up w = true ->
  task request <> "" ->
  exists subtasks w2 evs,
    let tid := uuid_src w (uuid_next w) in
    Forall is_draft subtasks /\
    map type subtasks = planned_types (task request) /\
    submit_task request w =
      (Ok (submitted_response tid subtasks), world_after_submit w subtasks,
       [EvSet (redis_key tid) (submitted_response tid subtasks) (Some 604800)]) /\
    (exists t',
       process_subtasks tid (submitted_task tid subtasks)
                        (seq 0 (length subtasks)) (world_after_submit w subtasks) =
         (Ok t', w2, evs)) /\
    redis_up w2 = true /\
    task_lifetime request w =
      (Ok tt,
       mkWorld true
         (<[redis_key tid := (Task_dict (completed_task tid subtasks), None)]>
            (redis_db w2))
         (clock w2) (uuid_src w2) (uuid_next w2) (task_queue w2) (spawned w2),
       EvSet (redis_key tid) (submitted_response tid subtasks) (Some 604800)
       :: evs ++ [EvSet (redis_key tid) (Task_dict (completed_task tid subtasks)) None]).
Proof.
  intros Hup Hne.
  destruct (submit_task_ok request w Hup Hne) as (subtasks & Hdr & Hty & Hsub).
  change (submit_task request w =
            (Ok (submitted_response (uuid_src w (uuid_next w)) subtasks),
             world_after_submit w subtasks,
             [EvSet (redis_key (uuid_src w (uuid_next w)))
                    (submitted_response (uuid_src w (uuid_next w)) subtasks)
                    (Some 604800)])) in Hsub.
  set (tid := uuid_src w (uuid_next w)) in *.
  destruct (submitted_task_run tid subtasks (world_after_submit w subtasks) eq_refl Hdr)
    as (t' & w2 & evs & Hloop & Hid & Hst & Hfin & Hp1 & Hp0 & Hrun).
  destruct (process_subtasks_header tid _ _ (world_after_submit w subtasks) _ _ _
              eq_refl Hloop)
    as (t'' & [= <-] & Hup2 & _ & _ & Hres & Herr & _).
  simpl in Hres, Herr.
  assert (Hprog : t_progress t' = progress_ratio (length subtasks) (length subtasks)).
  { destruct subtasks as [|s l] eqn:El.
    - by rewrite Hp0.
    - rewrite Hp1 by done. symmetry. apply progress_ratio_full. simpl. lia. }
  exists subtasks, w2, evs. cbn zeta.
  split; [done |]. split; [done |]. split; [done |].
  split; [by exists t' |]. split; [done |].
  unfold task_lifetime, bind. rewrite Hsub.
  unfold execute_task, bind. cbv beta iota. cbn [task_id submitted_response].
  fold tid.
  rewrite (redis_get_up _ (world_after_submit w subtasks) eq_refl).
  assert (Hsv : stored_value (world_after_submit w subtasks) (redis_key tid) =
                Some (submitted_response tid subtasks)).
  { unfold stored_value, world_after_submit. simpl. rewrite lookup_insert_eq.
    by replace (clock w <? clock w + 604800) with true
      by (symmetry; apply Z.ltb_lt; lia). }
  rewrite Hsv. simpl. rewrite Subtasks_of_dicts_dict.
  fold (submitted_task tid subtasks).
  rewrite Hrun. unfold completed_task.
  by rewrite Hres, Herr, Hprog, Hfin.
Qed.

(** X3.  A task with a plan can be queried while it waits for its first
    sub-task.  The coroutine of an accepted task with at least one planned
    sub-task suspends, in its first sleep, before it has written anything,
    so the store is then as [submit_task] left it; a [get_task_status]
    served at that point answers with the task in status PENDING, progress
    0, no result and no error, and with the planned sub-tasks, all still
    drafts.  A task with an empty plan never suspends: its coroutine runs
    to its end as soon as it is scheduled, and the first request that can
    be served afterwards already finds the task COMPLETED, with progress 0
    and no sub-tasks. *)
Theorem submit_then_get_task_status (request : TaskRequest) (w : World) :
  redis_up w = true ->
  task request <> "" ->
  exists response w1 subtasks,
    result_of (submit_task request w) = Ok response /\
    world_of (submit_task request w) = w1 /\
    map type subtasks = planned_types (task request) /\
    Forall is_draft subtasks /\
    (planned_types (task request) <> [] ->
     (exists u rest,
        events_of (task_lifetime request w) =
          EvSet (redis_key (task_id response)) response (Some 604800)
          :: EvSleep u :: rest) /\
     get_task_status (task_id response) w1 =
       (Ok (mkTask (task_id response) PENDING None None 0 subtasks), w1, [])) /\
    (planned_types (task request) = [] ->
     exists w' v,
       task_lifetime request w =
         (Ok tt, w',
          [EvSet (redis_key (task_id response)) response (Some 604800);
           EvSet (redis_key (task_id response)) v None]) /\
       get_task_status (task_id response) w' =
         (Ok (mkTask (task_id response) COMPLETED None None 0 []), w', [])).
Proof.
  intros Hup Hne.
  destruct (lifetime_final request w Hup Hne)
    as (subtasks & w2 & evs & Hdr & Hty & Hsub & (t' & Hloop) & Hup2 & Hlife).
  cbn zeta in Hsub, Hloop, Hlife. set (tid := uuid_src w (uuid_next w)) in *.
  rewrite Hsub.
  exists (submitted_response tid subtasks), (world_after_submit w subtasks), subtasks.
  split; [reflexivity |]. split; [reflexivity |].
  split; [done |]. split; [done |]. split.
  - intros Hplan. split.
    + destruct subtasks as [| s rest]; [by rewrite <- Hty in Hplan |].
      assert (Hs : status s = PENDING).
      { apply Forall_cons in Hdr as [Hs _]. apply Hs. }
      cbn [length seq] in Hloop.
      destruct (process_subtasks_step tid (submitted_task tid (s :: rest)) 0
                  (seq 1 (length rest)) (world_after_submit w (s :: rest)) eq_refl)
        as [(s' & Hs' & _ & Hrun) | [Hno _]].
      2: { by destruct (Hno s eq_refl). }
      cbn zeta in Hrun. rewrite Hrun in Hloop.
      match type of Hloop with
      | context [process_subtasks ?a ?b ?c ?d] =>
          destruct (process_subtasks a b c d) as [[r3 w3] evs3]
      end.
      injection Hloop as E1 E2 E3. subst evs.
      rewrite Hlife. unfold events_of. cbn [snd task_id submitted_response].
      by eexists _, _.
    + unfold get_task_status, try_except, bind. cbn [task_id submitted_response].
      rewrite (redis_get_up _ (world_after_submit w subtasks) eq_refl).
      unfold stored_value, world_after_submit. simpl. fold tid.
      rewrite lookup_insert_eq.
      replace (clock w <? clock w + 604800) with true
        by (symmetry; apply Z.ltb_lt; lia).
      simpl. by rewrite Subtasks_of_dicts_dict.
  - intros Hplan.
    assert (subtasks = []) as ->.
    { rewrite Hplan in Hty. by destruct subtasks. }
    simpl in Hloop. injection Hloop as E1 E2 E3. subst w2 evs.
    rewrite Hlife. eexists _, _. split; [reflexivity |].
    unfold get_task_status, try_except, bind. cbn [task_id submitted_response].
    rewrite redis_get_up by done.
    unfold stored_value. simpl. by rewrite lookup_insert_eq.
Qed.

(** X4.  A record that is only submitted lives seven days: as long as
    fewer than 604800 seconds have passed since the submission the stored
    record is found, and from 604800 seconds on it is gone and
    [get_task_status] answers as for an unknown id. *)
Theorem submitted_record_expires (request : TaskRequest) (w : World) (d : Z) :
  redis_up w = true ->
  task request <> "" ->
  exists response w1,
    submit_task request w =
      (Ok response, w1,
       [EvSet (redis_key (task_id response)) response (Some 604800)]) /\
    (d < 604800 ->
     stored_value (tick d w1) (redis_key (task_id response)) = Some response) /\
    (604800 <= d ->
     stored_value (tick d w1) (redis_key (task_id response)) = None /\
     get_task_status (task_id response) (tick d w1) =
       (Raise (HTTPException 500 "404: Task not found"), tick d w1, [])).
Proof.
  intros Hup Hne.
  destruct (lifetime_final request w Hup Hne)
    as (subtasks & w2 & evs & Hdr & Hty & Hsub & _).
  cbn zeta in Hsub. rewrite Hsub.
  exists (submitted_response (uuid_src w (uuid_next w)) subtasks),
         (world_after_submit w subtasks).
  split; [reflexivity |]. cbn [task_id submitted_response].
  assert (Hsv : forall b, (clock w + d <? clock w + 604800) = b ->
            stored_value (tick d (world_after_submit w subtasks))
              (redis_key (uuid_src w (uuid_next w))) =
            if b then Some (submitted_response (uuid_src w (uuid_next w)) subtasks)
            else None).
  { intros b Hb. unfold stored_value, tick. simpl.
    by rewrite lookup_insert_eq, Hb. }
  split.
  - intros Hd. apply (Hsv true). apply Z.ltb_lt. lia.
  - intros Hd. assert (Hnone := Hsv false ltac:(apply Z.ltb_ge; lia)).
    split; [done |].
    unfold get_task_status, try_except, bind.
    by rewrite (redis_get_up _ (tick d (world_after_submit w subtasks)) eq_refl), Hnone.
Qed.

(** X5.  After its life a task stays available for good: the writes of
    [execute_task] carry no expiry, so however much time has passed since,
    [get_task_status] answers with the task in status COMPLETED, every
    planned sub-task finished (status COMPLETED, progress 1.0, result
    "Subtask <id> completed", no error), and the task's own result and
    error still unset. *)
Theorem executed_task_stays_available (request : TaskRequest) (w : World) (d : Z) :
  redis_up w = true ->
  task request <> "" ->
  exists w' evs t,
    task_lifetime request w = (Ok tt, w', evs) /\
    get_task_status (uuid_src w (uuid_next w)) (tick d w') = (Ok t, tick d w', []) /\
    t_task_id t = uuid_src w (uuid_next w) /\
    t_status t = COMPLETED /\ t_result t = None /\ t_error t = None /\
    map type (t_subtasks t) = planned_types (task request) /\
    Forall is_finished (t_subtasks t).
Proof.
  intros Hup Hne.
  destruct (lifetime_final request w Hup Hne)
    as (subtasks & w2 & evs & Hdr & Hty & _ & _ & Hup2 & Hlife).
  cbn zeta in Hlife. set (tid := uuid_src w (uuid_next w)) in *.
  eexists _, _, (completed_task tid subtasks). split; [exact Hlife |].
  split; [| split; [done | split; [done | split; [done | split; [done |]]]]].
  - unfold get_task_status, try_except, bind.
    rewrite redis_get_up by done.
    unfold stored_value, tick. simpl. rewrite lookup_insert_eq. simpl.
    by rewrite Subtasks_of_dicts_dict.
  - simpl. split.
    + by rewrite (proj1 (map_finish_type subtasks)).
    + by apply drafts_finished.
Qed.

(** X6.  [execute_task] on an id without a record, or with an expired
    one, returns at once: it raises nothing, writes nothing, dispatches
    nothing and leaves the world as it was.  With the store unreachable it
    raises the connection error of its first read, again without any
    effect. *)
Theorem execute_task_without_record (tid : string) (w : World) :
  (redis_up w = true ->
   stored_value w (redis_key tid) = None ->
   execute_task tid w = (Ok tt, w, [])) /\
  (redis_up w = false ->
   exists e, execute_task tid w = (Raise (ConnectionError e), w, [])).
Proof.
  unfold execute_task, bind. split.
  - intros Hup Hr. by rewrite (redis_get_up _ _ Hup), Hr.
  - intros Hup. unfold redis_get. rewrite Hup. by eexists.
Qed.

(** X7.  Running the coroutine of a task a second time, after its life,
    is harmless: it dispatches nothing, writes the final record once more,
    and leaves the store exactly as it was. *)
Theorem second_run_changes_nothing (request : TaskRequest) (w : World) :
  redis_up w = true ->
  task request <> "" ->
  exists w' evs v w'',
    task_lifetime request w = (Ok tt, w', evs) /\
    redis_db w' !! redis_key (uuid_src w (uuid_next w)) = Some (v, None) /\
    execute_task (uuid_src w (uuid_next w)) w' =
      (Ok tt, w'', [EvSet (redis_key (uuid_src w (uuid_next w))) v None]) /\
    redis_db w'' = redis_db w' /\ clock w'' = clock w'.
Proof.
  intros Hup Hne.
  destruct (lifetime_final request w Hup Hne)
    as (subtasks & w2 & evs & Hdr & Hty & _ & _ & Hup2 & Hlife).
  cbn zeta in Hlife. set (tid := uuid_src w (uuid_next w)) in *.
  eexists _, _, (Task_dict (completed_task tid subtasks)), _.
  split; [exact Hlife |]. split; [simpl; by rewrite lookup_insert_eq |].
  assert (Hall : all_completed (map finish_subtask subtasks) = true)
    by (by apply drafts_finish).
  assert (Hno : forall s, s ∈ map finish_subtask subtasks -> status s <> PENDING).
  { intros s Hs. apply all_completed_Forall in Hall.
    rewrite Forall_forall in Hall. rewrite (Hall s Hs). discriminate. }
  unfold execute_task, bind. rewrite redis_get_up by done.
  unfold stored_value. simpl. rewrite lookup_insert_eq. simpl.
  rewrite Subtasks_of_dicts_dict. unfold run_task, bind.
  rewrite process_subtasks_no_pending by done.
  unfold complete_task. simpl. rewrite Hall. unfold redis_set. simpl.
  split; [reflexivity |]. split; [| reflexivity].
  simpl. by rewrite insert_insert_eq.
Qed.

(** X8.  A sub-task that is neither pending nor completed (left in
    progress, or failed) is never dispatched again and keeps its task from
    completing: [execute_task] ends normally, every snapshot it writes has
    the status the record had and still holds that sub-task unchanged. *)
Theorem unfinished_subtask_blocks_completion (tid : string) (w : World)
    (r : TaskResponse) (subs : list Subtask) (s : Subtask) :
  redis_up w = true ->
  stored_value w (redis_key tid) = Some r ->
  Subtasks_of_dicts (r_subtasks r) = Some subs ->
  s ∈ subs ->
  status s <> PENDING ->
  status s <> COMPLETED ->
  exists w' evs,
    execute_task tid w = (Ok tt, w', evs) /\
    Forall (fun v => r_status v = r_status r /\ Subtask_dict s ∈ r_subtasks v)
           (stored_snapshots evs).
Proof.
  intros Hup Hr Hsubs Hin Hnp Hnc.
  unfold execute_task, bind. rewrite (redis_get_up _ _ Hup), Hr, Hsubs.
  set (t := mkTask (task_id r) (r_status r) (r_result r) (r_error r)
                   (r_progress r) subs).
  destruct (run_task_run tid t w Hup) as (t' & w' & evs & Hloop & Hup' & Hrun).
  destruct (process_subtasks_final tid subs (length subs) 0 t w _ _ _ Hup
              eq_refl eq_refl Hloop) as (t'' & [= <-] & Hfin & _).
  assert (Hall : all_completed (t_subtasks t') = false).
  { destruct (all_completed (t_subtasks t')) eqn:E; [| done].
    apply all_completed_Forall in E. rewrite Forall_forall in E.
    exfalso. apply Hnc. rewrite <- (finish_subtask_skip s Hnp).
    apply E. rewrite Hfin. apply list_elem_of_fmap. by exists s. }
  rewrite Hall in Hrun. simpl. rewrite Hrun.
  exists w', evs. split; [done |].
  destruct (process_subtasks_observed _ _ _ _ _ _ _ Hup Hloop) as [_ Hsto].
  pose proof (process_subtasks_keeps tid s _ Hnp t w _ _ _ Hup Hin Hloop) as Hk.
  rewrite Forall_forall in Hsto. rewrite Forall_forall in Hk.
  apply Forall_forall. intros v Hv. split; [by apply Hsto | by apply Hk].
Qed.

Lemma process_subtasks_events_own (tid : string) (positions : list nat) :
  forall (t : Task) (w : World) r w' evs,
    redis_up w = true ->
    process_subtasks tid t positions w = (r, w', evs) ->
    Forall (fun e => match e with
                     | EvSet key _ _ => key = redis_key tid
                     | EvSleep u => t_task_id u = t_task_id t
                     end) evs.
Proof.
  induction positions as [|i rest IH]; intros t w r w' evs Hup Hrun.
  - injection Hrun as <- <- <-. constructor.
  - destruct (process_subtasks_step tid t i rest w Hup)
      as [(s & Hi & Hs & Heq) | [_ Heq]]; rewrite Heq in Hrun; clear Heq.
    + cbn zeta in Hrun.
      match type of Hrun with
      | context [process_subtasks tid ?t2 rest ?w2] =>
          destruct (process_subtasks tid t2 rest w2) as [[r2 w2'] evs2] eqn:E;
          pose proof (IH t2 w2 _ _ _ eq_refl E) as Hrest
      end.
      injection Hrun as <- <- <-. by repeat constructor.
    + by apply (IH _ _ _ _ _ Hup Hrun).
Qed.

Lemma drafts_pending_run (tid : string) (subtasks : list Subtask) (w1 : World)
    r w2 evs :
  redis_up w1 = true ->
  Forall is_draft subtasks ->
  process_subtasks tid (submitted_task tid subtasks) (seq 0 (length subtasks)) w1 =
    (r, w2, evs) ->
  length (suspended_tasks evs) = length subtasks /\
  Forall (fun u => length (in_progress_subtasks u) = 1%nat) (suspended_tasks evs) /\
  map r_progress (stored_snapshots evs) =
    map (fun m => progress_ratio m (length subtasks)) (seq 1 (length subtasks)).
Proof.
  intros Hup Hdr Hrun. rewrite Forall_forall in Hdr.
  assert (Hst : forall s, s ∈ subtasks -> status s = PENDING)
    by (intros s Hs; by destruct (Hdr s Hs)).
  destruct (process_subtasks_all_pending tid (length subtasks) 0
              (submitted_task tid subtasks) w1 r w2 evs Hup eq_refl)
    as (H1 & H2 & H3); [| | done |].
  - intros j s _ Hj. apply Hst. by eapply list_elem_of_lookup_2.
  - intros s Hs. simpl in Hs. rewrite (Hst s Hs). discriminate.
  - split; [done |]. split; [done |]. rewrite H3. simpl.
    assert (Hc : count_completed subtasks = 0%nat).
    { unfold count_completed. rewrite filter_none; [done |].
      intros s Hs. rewrite (Hst s Hs). discriminate. }
    by rewrite Hc.
Qed.

(** X9.  Sub-tasks run strictly one after the other.  Over the life of
    an accepted task the coroutine is suspended once per planned sub-task,
    at each suspension exactly one sub-task is in progress, and the life
    takes as many seconds as the task has sub-tasks. *)
Theorem subtasks_run_one_at_a_time (request : TaskRequest) (w : World) :
  redis_up w = true ->
  task request <> "" ->
  exists w' evs,
    task_lifetime request w = (Ok tt, w', evs) /\
    length (suspended_tasks evs) = length (planned_types (task request)) /\
    Forall (fun u => length (in_progress_subtasks u) = 1%nat) (suspended_tasks evs) /\
    clock w' = clock w + Z.of_nat (length (planned_types (task request))).
Proof.
  intros Hup Hne.
  destruct (lifetime_final request w Hup Hne)
    as (subtasks & w2 & evs & Hdr & Hty & _ & [t' Hloop] & Hup2 & Hlife).
  cbn zeta in Hlife, Hloop. set (tid := uuid_src w (uuid_next w)) in *.
  destruct (drafts_pending_run tid subtasks (world_after_submit w subtasks) _ _ _ eq_refl Hdr Hloop)
    as (Hn & Hone & _).
  destruct (process_subtasks_frame tid _ _ (world_after_submit w subtasks) _ _ _
              eq_refl Hloop) as (_ & _ & _ & _ & Hclk & _).
  assert (Hlen : length (planned_types (task request)) = length subtasks)
    by (by rewrite <- Hty, length_map).
  eexists _, _. split; [exact Hlife |]. simpl.
  rewrite suspended_tasks_app. simpl. rewrite app_nil_r, Hlen.
  split; [done |]. split; [done |].
  rewrite Hclk, Hn. reflexivity.
Qed.

(** X10.  Over the life of an accepted task with n sub-tasks the store
    is written n + 2 times, and the progress values written are, in order,
    0 at submission, then k/n after the k-th sub-task, and the last of
    these once more with the status COMPLETED. *)
Theorem progress_sequence (request : TaskRequest) (w : World) :
  redis_up w = true ->
  task request <> "" ->
  exists w' evs,
    let n := length (planned_types (task request)) in
    task_lifetime request w = (Ok tt, w', evs) /\
    length (stored_snapshots evs) = (n + 2)%nat /\
    map r_progress (stored_snapshots evs) =
      0%Q :: map (fun k => progress_ratio k n) (seq 1 n) ++ [progress_ratio n n].
Proof.
  intros Hup Hne.
  destruct (lifetime_final request w Hup Hne)
    as (subtasks & w2 & evs & Hdr & Hty & _ & [t' Hloop] & Hup2 & Hlife).
  cbn zeta in Hlife, Hloop. set (tid := uuid_src w (uuid_next w)) in *.
  destruct (drafts_pending_run tid subtasks (world_after_submit w subtasks) _ _ _ eq_refl Hdr Hloop)
    as (Hn & _ & Hprog).
  destruct (process_subtasks_frame tid _ _ (world_after_submit w subtasks) _ _ _
              eq_refl Hloop) as (_ & _ & _ & _ & _ & Hcnt & _).
  assert (Hlen : length (planned_types (task request)) = length subtasks)
    by (by rewrite <- Hty, length_map).
  eexists _, _. cbn zeta. split; [exact Hlife |]. simpl.
  rewrite stored_snapshots_app, Hlen. simpl. split.
  - rewrite length_app, Hcnt, Hn. simpl. lia.
  - by rewrite map_app, Hprog.
Qed.

(** X11.  A task's life touches nothing but the task: every other key
    of the store keeps its value and expiry, the id of the new task is
    appended once to the orchestrator's queue and to the scheduled
    coroutines, and the queue is never taken from. *)
Theorem lifetime_touches_own_record_only (request : TaskRequest) (w : World) :
  redis_up w = true ->
  task request <> "" ->
  exists w' evs,
    let tid := uuid_src w (uuid_next w) in
    task_lifetime request w = (Ok tt, w', evs) /\
    (forall key, key <> redis_key tid -> redis_db w' !! key = redis_db w !! key) /\
    task_queue w' = task_queue w ++ [tid] /\
    spawned w' = spawned w ++ [tid] /\
    Forall (fun e => match e with
                     | EvSet key _ _ => key = redis_key tid
                     | EvSleep u => t_task_id u = tid
                     end) evs.
Proof.
  intros Hup Hne.
  destruct (lifetime_final request w Hup Hne)
    as (subtasks & w2 & evs & Hdr & Hty & _ & [t' Hloop] & Hup2 & Hlife).
  cbn zeta in Hlife, Hloop. set (tid := uuid_src w (uuid_next w)) in *.
  destruct (process_subtasks_frame tid _ _ (world_after_submit w subtasks) _ _ _
              eq_refl Hloop) as (_ & _ & Hq & Hsp & _ & _ & Hother & _).
  eexists _, _. cbn zeta. split; [exact Hlife |]. simpl.
  split; [| split; [by rewrite Hq | split; [by rewrite Hsp |]]].
  - intros key Hkey. rewrite lookup_insert_ne by done.
    rewrite (Hother key Hkey). unfold world_after_submit. simpl.
    by rewrite lookup_insert_ne.
  - constructor; [done |]. apply Forall_app. split; [| by constructor].
    apply (process_subtasks_events_own tid _ (submitted_task tid subtasks)
             (world_after_submit w subtasks) _ _ _ eq_refl Hloop).
Qed.

(** ** More on planning and submission *)

Lemma planned_types_order (description : string) :
  planned_types description `sublist_of` capability_order.
Proof.
  unfold planned_types, capability_order.
  change [WEB_RESEARCH; CODE_GENERATION; DATA_ANALYSIS; CONTENT_CREATION]
    with ([WEB_RESEARCH] ++ [CODE_GENERATION] ++ [DATA_ANALYSIS] ++ [CONTENT_CREATION]).
  repeat apply sublist_app;
    match goal with
    | |- context [if ?b then _ else _] => destruct b
    end; (reflexivity || apply sublist_nil_l).
Qed.

(** X12.  The drafts always come in the order web research, code
    generation, data analysis, content creation, whatever the order in
    which the keywords occur in the description; and two descriptions that
    differ only in letter case get the same drafts up to their ids. *)
Theorem plan_task_order (request : TaskRequest) (w : World) :
  exists subtasks,
    result_of (plan_task request w) = Ok subtasks /\
    map type subtasks `sublist_of` capability_order /\
    (forall request' v,
       lower (task request') = lower (task request) ->
       exists subtasks',
         result_of (plan_task request' v) = Ok subtasks' /\
         map draft_shape subtasks' = map draft_shape subtasks).
Proof.
  destruct (plan_task_run request w) as (subtasks & Hrun & Hty & Hdr).
  exists subtasks. split; [by rewrite Hrun |]. split.
  - rewrite Hty. apply planned_types_order.
  - intros request' v Heq.
    destruct (plan_task_run request' v) as (subtasks' & Hrun' & Hty' & Hdr').
    exists subtasks'. split; [by rewrite Hrun' |].
    rewrite (draft_shape_of_type _ Hdr), (draft_shape_of_type _ Hdr'), Hty, Hty'.
    unfold planned_types. by rewrite Heq.
Qed.

(** The ids of the drafts are consecutive draws from the id source. *)
Lemma plan_task_ids (request : TaskRequest) (w : World) :
  exists subtasks,
    result_of (plan_task request w) = Ok subtasks /\
    map id subtasks = map (uuid_src w) (seq (uuid_next w) (length subtasks)).
Proof.
  unfold plan_task, plan_step, bind, uuid4, ret.
  destruct w as [up db clk src n q sp]; simpl.
  destruct (contains "research" _), (contains "code" _),
           (contains "analyze" _), (contains "write" _); simpl;
    eexists; (split; [reflexivity |]); reflexivity.
Qed.

(** [submit_task] on an accepted request, with the plan it stored. *)
Lemma submit_task_plan (request : TaskRequest) (w : World) :
  redis_up w = true ->
  task request <> "" ->
  exists subtasks,
    result_of (plan_task request
                 (mkWorld (redis_up w) (redis_db w) (clock w) (uuid_src w)
                          (S (uuid_next w)) (task_queue w) (spawned w))) =
      Ok subtasks /\
    submit_task request w =
      (Ok (submitted_response (uuid_src w (uuid_next w)) subtasks),
       world_after_submit w subtasks,
       [EvSet (redis_key (uuid_src w (uuid_next w)))
              (submitted_response (uuid_src w (uuid_next w)) subtasks)
              (Some 604800)]).
Proof.
  intros Hup Hne.
  set (w1 := mkWorld (redis_up w) (redis_db w) (clock w) (uuid_src w)
                     (S (uuid_next w)) (task_queue w) (spawned w)).
  destruct (plan_task_run request w1) as (subtasks & Hrun & Hty & Hdr).
  exists subtasks. split; [by rewrite Hrun |].
  unfold submit_task, try_except, bind, validate_task.
  apply String.eqb_neq in Hne. rewrite Hne. simpl.
  unfold bind, uuid4. fold w1. rewrite Hrun. simpl.
  unfold redis_set, queue_append, create_task, ret. simpl. rewrite Hup.
  reflexivity.
Qed.

(** X13.  Ids are fresh as far as the id source is: when the source
    never repeats itself, the id of a new task and the ids of its sub-tasks
    are pairwise distinct, and all later draws differ from them. *)
Theorem submit_task_ids_fresh (request : TaskRequest) (w : World) :
  Inj (=) (=) (uuid_src w) ->
  redis_up w = true ->
  task request <> "" ->
  exists response subtasks w1,
    submit_task request w =
      (Ok response, w1, [EvSet (redis_key (task_id response)) response (Some 604800)]) /\
    Subtasks_of_dicts (r_subtasks response) = Some subtasks /\
    NoDup (task_id response :: map id subtasks) /\
    (forall k, (uuid_next w1 <= k)%nat ->
               uuid_src w1 k ∉ task_id response :: map id subtasks).
Proof.
  intros Hinj Hup Hne.
  destruct (submit_task_plan request w Hup Hne) as (subtasks & Hplan & Hsub).
  destruct (plan_task_ids request
              (mkWorld (redis_up w) (redis_db w) (clock w) (uuid_src w)
                       (S (uuid_next w)) (task_queue w) (spawned w)))
    as (subtasks' & Hplan' & Hids).
  rewrite Hplan in Hplan'. injection Hplan' as <-. simpl in Hids.
  assert (Hall : uuid_src w (uuid_next w) :: map id subtasks =
                 uuid_src w <$> seq (uuid_next w) (S (length subtasks))).
  { simpl. by rewrite Hids. }
  exists (submitted_response (uuid_src w (uuid_next w)) subtasks), subtasks,
         (world_after_submit w subtasks).
  split; [exact Hsub |]. split; [apply Subtasks_of_dicts_dict |].
  cbn [task_id submitted_response]. rewrite Hall. split.
  - apply NoDup_fmap_2; [done | apply NoDup_seq].
  - intros k Hk Hin. simpl in Hk.
    apply list_elem_of_fmap in Hin as (j & Hj & Hin).
    apply Hinj in Hj as <-. apply elem_of_seq in Hin. lia.
Qed.

(** X14.  When the store cannot be reached, a valid submission fails
    with a 500 after the plan has been made: nothing is stored, the queue
    is not extended and no coroutine is scheduled, and the caller is told
    of a retryable server error. *)
Theorem submit_task_store_down (request : TaskRequest) (w : World) :
  redis_up w = false ->
  task request <> "" ->
  exists d w' a,
    submit_task request w = (Raise (HTTPException 500 d), w', []) /\
    redis_db w' = redis_db w /\ task_queue w' = task_queue w /\
    spawned w' = spawned w /\
    Api.submitTask_error (http_response (result_of (submit_task request w))) =
      Some a /\
    Api.type a = Api.SERVER_ERROR /\ Api.statusCode a = Some 500 /\
    Api.retryable a = true.
Proof.
  intros Hup Hne.
  set (w1 := mkWorld (redis_up w) (redis_db w) (clock w) (uuid_src w)
                     (S (uuid_next w)) (task_queue w) (spawned w)).
  destruct (plan_task_run request w1) as (subtasks & Hrun & _).
  assert (Hsub : submit_task request w =
            (Raise (HTTPException 500
                      "Error submitting task: Error connecting to redis"),
             mkWorld (redis_up w) (redis_db w) (clock w) (uuid_src w)
                     (S (uuid_next w) + length subtasks)%nat (task_queue w) (spawned w),
             [])).
  { unfold submit_task, try_except, bind, validate_task.
    apply String.eqb_neq in Hne. rewrite Hne. simpl.
    unfold bind, uuid4. fold w1. rewrite Hrun. simpl.
    unfold redis_set. simpl. by rewrite Hup. }
  rewrite Hsub. eexists _, _, _. split; [reflexivity |]. by vm_compute.
Qed.

(* ===================================================================== *)
(** * Further properties of the front end's API layer *)
(* ===================================================================== *)

Lemma js_or_nonempty (a : option string) (b : string) :
  b <> "" -> Api.js_or a b <> "".
Proof.
  intros Hb. unfold Api.js_or. destruct a as [s|]; [| done].
  destruct (String.eqb s "") eqn:E; [done |]. by apply String.eqb_neq in E.
Qed.

Lemma Api_message_nonempty (error : Api.Caught) (defaultMessage : string) :
  defaultMessage <> "" ->
  Api.message (Api.handleApiError error defaultMessage) <> "".
Proof.
  intros Hd. destruct error as [st data | | |]; simpl; try done.
  repeat match goal with
         | |- context [if ?b then _ else _] => destruct b
         end; simpl; try done.
  - by apply js_or_nonempty.
  - by apply js_or_nonempty.
  - unfold Api.js_or3. by apply js_or_nonempty, js_or_nonempty.
Qed.

(** On a body whose detail and message members are strings or absent,
    the function on bodies of any shape returns what [Api.handleApiError]
    returns. *)
Lemma handleApiError_refines (error : Api.Caught) (defaultMessage : string) :
  ApiAny.handleApiError (ApiAny.of_Caught error) defaultMessage =
    Some (ApiAny.of_response (Api.handleApiError error defaultMessage)).
Proof.
  destruct error as [st [detail message] | | |]; try done.
  unfold ApiAny.handleApiError, Api.handleApiError, Api.detail_includes,
    ApiAny.of_response, Api.js_or3.
  cbn -[contains String.eqb Z.eqb Z.leb Z.ltb].
  destruct (st =? 503), (st =? 400), (500 <=? st);
    destruct detail as [s|], message as [m|];
    cbn -[contains String.eqb Z.eqb Z.leb Z.ltb];
    repeat match goal with
           | |- context [contains ?x ?y] => destruct (contains x y)
           end;
    cbn -[contains String.eqb Z.eqb Z.leb Z.ltb];
    unfold ApiAny.js_or, Api.js_or;
    cbn -[contains String.eqb Z.eqb Z.leb Z.ltb];
    repeat match goal with
           | |- context [String.eqb ?a ?b] =>
               destruct (String.eqb a b);
               cbn -[contains String.eqb Z.eqb Z.leb Z.ltb]
           end;
    done.
Qed.

Lemma js_or_truthy (a b : ApiAny.Value) :
  ApiAny.truthy b = true -> ApiAny.truthy (ApiAny.js_or a b) = true.
Proof. intros Hb. unfold ApiAny.js_or. by destruct (ApiAny.truthy a) eqn:E. Qed.

Lemma includes_callable (d : ApiAny.Value) (x y : string) :
  ApiAny.includes d x = None <-> ApiAny.includes d y = None.
Proof. by destruct d. Qed.

(** When the function throws instead of returning. *)
Lemma handleApiError_throws (st : Z) (data : ApiAny.Body) (defaultMessage : string) :
  ApiAny.handleApiError (ApiAny.AxiosWithResponse st data) defaultMessage = None <->
  data = ApiAny.BodyNull \/
  st = 503 /\ exists d m, data = ApiAny.BodyObject d m /\
                          ApiAny.includes d "Storage service" = None.
Proof.
  unfold ApiAny.handleApiError. destruct data as [| d m |]; cbn.
  - split; [by left |]. intros _. destruct (st =? 503); cbn; [done |].
    destruct (st =? 400); cbn; [done |]. by destruct (500 <=? st).
  - destruct (st =? 503) eqn:E503;
      [apply Z.eqb_eq in E503 | apply Z.eqb_neq in E503]; cbn.
    + destruct (ApiAny.includes d "Storage service") as [[|]|] eqn:Es; cbn.
      * split; [done |]. intros [? | (_ & d' & m' & Heq & Hn)]; [done |].
        injection Heq as <- <-. congruence.
      * destruct (ApiAny.includes d "Redis") as [[|]|] eqn:Er; cbn.
        -- split; [done |]. intros [? | (_ & d' & m' & Heq & Hn)]; [done |].
           injection Heq as <- <-. congruence.
        -- destruct (st =? 400); cbn;
             [| destruct (500 <=? st); cbn];
             (split; [done |]; intros [? | (_ & d' & m' & Heq & Hn)]; [done |];
              injection Heq as <- <-; congruence).
        -- apply (includes_callable d "Redis" "Storage service") in Er. congruence.
      * split; [| done]. intros _. right. split; [done |]. by exists d, m.
    + destruct (st =? 400); cbn; [| destruct (500 <=? st); cbn];
        (split; [done |]; intros [? | (? & _)]; done).
  - destruct (st =? 503); cbn;
      (destruct (st =? 400); cbn; [| destruct (500 <=? st); cbn]);
      (split; [done |]; intros [? | (_ & d' & m' & Heq & _)]; done).
Qed.

(** What the function returns for an answer with a status, when it
    returns. *)
Lemma handleApiError_returns (st : Z) (data : ApiAny.Body) (defaultMessage : string)
    (e : ApiAny.ErrorResponse) :
  ApiAny.handleApiError (ApiAny.AxiosWithResponse st data) defaultMessage = Some e ->
  ApiAny.statusCode e = Some st /\
  ApiAny.retryable e = negb (st =? 400) /\
  (ApiAny.type e = Api.REDIS_UNAVAILABLE /\ st = 503 \/
   ApiAny.type e = Api.VALIDATION_ERROR /\ st = 400 \/
   ApiAny.type e = Api.SERVER_ERROR /\ 500 <= st \/
   ApiAny.type e = Api.UNKNOWN_ERROR /\ st <> 400 /\ st < 500) /\
  (defaultMessage <> "" -> ApiAny.truthy (ApiAny.message e) = true).
Proof.
  unfold ApiAny.handleApiError.
  destruct (st =? 503) eqn:E503; [apply Z.eqb_eq in E503 | apply Z.eqb_neq in E503];
  destruct (st =? 400) eqn:E400; [apply Z.eqb_eq in E400 | apply Z.eqb_neq in E400
                                 | apply Z.eqb_eq in E400 | apply Z.eqb_neq in E400];
  destruct (500 <=? st) eqn:E500; [apply Z.leb_le in E500 | apply Z.leb_gt in E500
                                  | apply Z.leb_le in E500 | apply Z.leb_gt in E500
                                  | apply Z.leb_le in E500 | apply Z.leb_gt in E500
                                  | apply Z.leb_le in E500 | apply Z.leb_gt in E500];
  try lia; cbn.
  - destruct (ApiAny.get_detail data) as [d|]; cbn; [| done].
    destruct (ApiAny.includes d "Storage service") as [[|]|]; cbn; [| | done].
    + intros [= <-]. cbn. repeat split; auto.
    + destruct (ApiAny.includes d "Redis") as [[|]|]; cbn; [| | done].
      * intros [= <-]. cbn. repeat split; auto.
      * intros [= <-]. cbn. repeat split; auto 6.
        intros _. by apply js_or_truthy.
  - destruct (ApiAny.get_detail data) as [d|]; cbn; [| done].
    intros [= <-]. cbn. repeat split; auto 6. intros _. by apply js_or_truthy.
  - destruct (ApiAny.get_detail data) as [d|]; cbn; [| done].
    intros [= <-]. cbn. repeat split; auto 6. intros _. by apply js_or_truthy.
  - destruct (ApiAny.get_detail data) as [d|]; cbn; [| done].
    destruct (ApiAny.get_message data) as [m|]; cbn; [| done].
    intros [= <-]. cbn. repeat split; auto 8.
    + apply Z.ltb_lt. lia.
    + intros Hd. apply js_or_truthy, js_or_truthy. cbn.
      destruct (String.eqb defaultMessage "") eqn:E; [| done].
      by apply String.eqb_eq in E.
Qed.

(** X15.  handleApiError never returns an empty or missing message when
    the caller's default message is not empty: whatever was caught and
    whatever the body is, the message of the error it returns is truthy.
    It does not always return: for an answer whose body is null, and for a
    503 whose detail is a number, a boolean or an object, it throws a
    TypeError instead, and in no other case.  For a body whose detail and
    message are strings or absent it returns, and its message is a string
    that is not empty. *)
Theorem handleApiError_message_nonempty (error : ApiAny.Caught)
    (defaultMessage : string) :
  defaultMessage <> "" ->
  (forall e, ApiAny.handleApiError error defaultMessage = Some e ->
             ApiAny.truthy (ApiAny.message e) = true) /\
  (ApiAny.handleApiError error defaultMessage = None <->
   exists st data,
     error = ApiAny.AxiosWithResponse st data /\
     (data = ApiAny.BodyNull \/
      st = 503 /\ exists d m, data = ApiAny.BodyObject d m /\
                              ApiAny.includes d "Storage service" = None)) /\
  (forall c,
     error = ApiAny.of_Caught c ->
     exists s,
       ApiAny.handleApiError error defaultMessage =
         Some (ApiAny.mkErrorResponse (ApiAny.VStr s)
                 (Api.type (Api.handleApiError c defaultMessage))
                 (Api.statusCode (Api.handleApiError c defaultMessage))
                 (Api.retryable (Api.handleApiError c defaultMessage))) /\
       s <> "").
Proof.
  intros Hd. split; [| split].
  - intros e He. destruct error as [st data | | |].
    + by apply (handleApiError_returns st data defaultMessage e He).
    + injection He as <-. done.
    + injection He as <-. cbn. destruct (String.eqb defaultMessage "") eqn:E; [| done].
      by apply String.eqb_eq in E.
    + injection He as <-. cbn. destruct (String.eqb defaultMessage "") eqn:E; [| done].
      by apply String.eqb_eq in E.
  - destruct error as [st data | | |].
    + rewrite handleApiError_throws. split.
      * intros H. by exists st, data.
      * intros (st' & data' & Heq & H). by injection Heq as <- <-.
    + split; [done |]. by intros (? & ? & ? & _).
    + split; [done |]. by intros (? & ? & ? & _).
    + split; [done |]. by intros (? & ? & ? & _).
  - intros c ->. exists (Api.message (Api.handleApiError c defaultMessage)).
    split; [apply handleApiError_refines | by apply Api_message_nonempty].
Qed.

(** X16.  For an answer that carries a status, handleApiError throws a
    TypeError when the body is null, and returns for every other body
    unless the status is 503.  Whenever it returns, it echoes the status
    and marks the error retryable for every status except 400: a 404, 401
    or 422 is reported as retryable just like a 500.  The error is a
    validation error exactly for status 400, a server side error (server
    error or storage outage) exactly for the statuses from 500 on, and the
    storage outage is reported for status 503 only. *)
Theorem handleApiError_by_response (st : Z) (data : ApiAny.Body)
    (defaultMessage : string) :
  let out := ApiAny.handleApiError (ApiAny.AxiosWithResponse st data) defaultMessage in
  (data = ApiAny.BodyNull -> out = None) /\
  (data <> ApiAny.BodyNull -> st <> 503 -> exists e, out = Some e) /\
  (forall e,
     out = Some e ->
     ApiAny.statusCode e = Some st /\
     ApiAny.retryable e = negb (st =? 400) /\
     (ApiAny.type e = Api.VALIDATION_ERROR <-> st = 400) /\
     (ApiAny.type e = Api.SERVER_ERROR \/ ApiAny.type e = Api.REDIS_UNAVAILABLE
      <-> 500 <= st) /\
     (ApiAny.type e = Api.REDIS_UNAVAILABLE -> st = 503) /\
     ApiAny.type e <> Api.NETWORK_ERROR).
Proof.
  cbn zeta. split; [| split].
  - intros ->. apply handleApiError_throws. by left.
  - intros Hnull H503.
    destruct (ApiAny.handleApiError (ApiAny.AxiosWithResponse st data) defaultMessage)
      as [e|] eqn:E; [by exists e |].
    apply handleApiError_throws in E as [? | [? _]]; done.
  - intros e He.
    destruct (handleApiError_returns st data defaultMessage e He)
      as (Hst & Hre & Hty & _).
    split; [done |]. split; [done |].
    destruct Hty as [[-> ->] | [[-> ->] | [[-> H] | [-> [H1 H2]]]]];
      repeat split; intros; try done; try lia;
      try (by left); try (by right);
      try match goal with
          | H : _ \/ _ |- _ => destruct H; discriminate
          end.
Qed.

(** What handleApiResponse rejects an answer outside 200 to 299 with. *)
Lemma handleApiResponse_rejects {T} (response : ApiFetch.Response T) :
  ApiFetch.ok response = false ->
  ApiFetch.handleApiResponse response =
    inl (ApiFetch.ThrownApiError
           (Api.mkApiErrorResponse
              (match ApiFetch.parsed response with
               | Some detail =>
                   Api.js_or detail
                     ("Error: " +:+ Z_to_string (ApiFetch.status response))
               | None =>
                   "Error " +:+ Z_to_string (ApiFetch.status response) +:+ ": " +:+
                   (if String.eqb (ApiFetch.text response) "" then "Unknown error"
                    else ApiFetch.text response)
               end)
              (if 500 <=? ApiFetch.status response then Api.SERVER_ERROR
               else Api.UNKNOWN_ERROR)
              (Some (ApiFetch.status response))
              ((500 <=? ApiFetch.status response)
               || (ApiFetch.status response =? 429)))).
Proof. intros Hok. unfold ApiFetch.handleApiResponse. by rewrite Hok. Qed.

(** X17.  handleApiResponse rejects every answer whose status is not
    from 200 to 299, with a structured error that echoes the status, has a
    message that is not empty, is a server error from 500 on and an unknown
    error below, and is retryable from 500 on and for 429 only.  An answer
    with a status from 200 to 299 resolves with the parsed body, or is
    rejected as not retryable when the body cannot be parsed. *)
Theorem handleApiResponse_outcomes {T} (response : ApiFetch.Response T) :
  (ApiFetch.ok response = false ->
   exists e,
     ApiFetch.handleApiResponse response = inl (ApiFetch.ThrownApiError e) /\
     Api.statusCode e = Some (ApiFetch.status response) /\
     Api.message e <> "" /\
     Api.type e = (if 500 <=? ApiFetch.status response
                   then Api.SERVER_ERROR else Api.UNKNOWN_ERROR) /\
     Api.retryable e = ((500 <=? ApiFetch.status response)
                        || (ApiFetch.status response =? 429))) /\
  (ApiFetch.ok response = true ->
   forall data, ApiFetch.json response = Some data ->
                ApiFetch.handleApiResponse response = inr data) /\
  (ApiFetch.ok response = true ->
   ApiFetch.json response = None ->
   ApiFetch.handleApiResponse response =
     inl (ApiFetch.ThrownApiError
            (Api.mkApiErrorResponse "Failed to parse API response"
               Api.UNKNOWN_ERROR None false))).
Proof.
  split; [| split].
  - intros Hok. rewrite (handleApiResponse_rejects _ Hok).
    eexists. split; [reflexivity |]. simpl.
    split; [done |]. split; [| done].
    destruct (ApiFetch.parsed response) as [detail|].
    + by apply js_or_nonempty.
    + discriminate.
  - intros Hok data Hj. unfold ApiFetch.handleApiResponse. by rewrite Hok, Hj.
  - intros Hok Hj. unfold ApiFetch.handleApiResponse. by rewrite Hok, Hj.
Qed.

(** X18.  The two error handlers of the API layer disagree.  For two
    rejected answers with the same status, whatever their bodies, the
    verdict of the axios based calls (handleApiError, when it returns) and
    that of the fetch based calls (handleApiResponse) on whether to retry
    agree exactly when the status is 400, 429 or at least 500; for every
    other status the first says retry and the second says do not.
    handleApiError gives no verdict, because it throws, only on a null body
    or a 503. *)
Theorem handlers_agree_on_retry {T} (response : ApiFetch.Response T)
    (data : ApiAny.Body) (defaultMessage : string) :
  ApiFetch.ok response = false ->
  exists e,
    ApiFetch.handleApiResponse response = inl (ApiFetch.ThrownApiError e) /\
    match ApiAny.handleApiError
            (ApiAny.AxiosWithResponse (ApiFetch.status response) data)
            defaultMessage with
    | Some a =>
        (ApiAny.retryable a = Api.retryable e <->
         ApiFetch.status response = 400 \/ ApiFetch.status response = 429 \/
         500 <= ApiFetch.status response) /\
        (ApiAny.retryable a <> Api.retryable e ->
         ApiAny.retryable a = true /\ Api.retryable e = false)
    | None => data = ApiAny.BodyNull \/ ApiFetch.status response = 503
    end.
Proof.
  intros Hok. rewrite (handleApiResponse_rejects _ Hok).
  eexists. split; [reflexivity |].
  set (st := ApiFetch.status response).
  destruct (ApiAny.handleApiError (ApiAny.AxiosWithResponse st data) defaultMessage)
    as [a|] eqn:E.
  2: { apply handleApiError_throws in E as [? | [? _]]; [by left | by right]. }
  destruct (handleApiError_returns st data defaultMessage a E) as (_ & -> & _).
  simpl. fold st.
  destruct (st =? 400) eqn:E400; [apply Z.eqb_eq in E400 | apply Z.eqb_neq in E400];
  destruct (500 <=? st) eqn:E500; [apply Z.leb_le in E500 | apply Z.leb_gt in E500
                                  | apply Z.leb_le in E500 | apply Z.leb_gt in E500];
  destruct (st =? 429) eqn:E429; [apply Z.eqb_eq in E429 | apply Z.eqb_neq in E429
                                 | apply Z.eqb_eq in E429 | apply Z.eqb_neq in E429
                                 | apply Z.eqb_eq in E429 | apply Z.eqb_neq in E429
                                 | apply Z.eqb_eq in E429 | apply Z.eqb_neq in E429];
  try lia; simpl; repeat split; intros; try done; try lia;
  try match goal with
      | H : _ \/ _ |- _ => destruct H as [? | [? | ?]]; lia
      end.
Qed.

(** X19.  getTaskHistory never passes on what went wrong.  An answer
    with a status outside 200 to 299 always gives the same object, with no
    keys, status "error" and the fixed text "Unknown error in response
    handling", whatever the status and the body were, and so does an answer
    from 200 to 299 whose body cannot be parsed; a failed fetch gives an
    empty task list and no error at all.  Only a parsed body of an answer
    from 200 to 299 is passed on, and it is passed on as it is.  So
    whenever the function builds its result itself, it is one of these two
    objects. *)
Theorem getTaskHistory_hides_errors {T} (f : ApiFetch.Fetched T) :
  let failed := ApiFetch.mkHistory None (Some []) (Some "error")
                  (Some "Unknown error in response handling") in
  let empty := ApiFetch.mkHistory (Some []) None None None in
  (forall response,
     f = ApiFetch.FetchResponse response ->
     ApiFetch.ok response = false ->
     ApiFetch.getTaskHistory f = inr failed) /\
  (forall response,
     f = ApiFetch.FetchResponse response ->
     ApiFetch.ok response = true ->
     ApiFetch.json response = None ->
     ApiFetch.getTaskHistory f = inr failed) /\
  (forall m,
     f = ApiFetch.FetchFailed m -> ApiFetch.getTaskHistory f = inr empty) /\
  (forall response data,
     f = ApiFetch.FetchResponse response ->
     ApiFetch.ok response = true ->
     ApiFetch.json response = Some data ->
     ApiFetch.getTaskHistory f = inl data) /\
  (forall h, ApiFetch.getTaskHistory f = inr h -> h = failed \/ h = empty).
Proof.
  cbn zeta. split; [| split; [| split; [| split]]].
  - intros response -> Hok. unfold ApiFetch.getTaskHistory.
    by rewrite (handleApiResponse_rejects _ Hok).
  - intros response -> Hok Hj.
    unfold ApiFetch.getTaskHistory, ApiFetch.handleApiResponse.
    by rewrite Hok, Hj.
  - by intros m ->.
  - intros response data -> Hok Hj.
    unfold ApiFetch.getTaskHistory, ApiFetch.handleApiResponse.
    by rewrite Hok, Hj.
  - intros h. destruct f as [m | response]; simpl.
    { intros [= <-]. by right. }
    unfold ApiFetch.handleApiResponse.
    destruct (negb (ApiFetch.ok response)); simpl.
    { intros [= <-]. by left. }
    destruct (ApiFetch.json response); simpl; [done |].
    intros [= <-]. by left.
Qed.


(* ===================================================================== *)
(** * Further properties of the replay component *)
(* ===================================================================== *)

Lemma animate_cases (st : Replay.State) (ts : Q) :
  (exists rd,
     Replay.replayData st = Some rd /\
     Replay.currentLogIndex st < Z.of_nat (length (Replay.logs rd)) - 1 /\
     Replay.currentLogIndex (Replay.animate st ts) = Replay.currentLogIndex st + 1 /\
     Replay.visibleLogs (Replay.animate st ts) =
       Replay.slice0 (Replay.logs rd) (Replay.currentLogIndex st + 2) /\
     Replay.isPlaying (Replay.animate st ts) = Replay.isPlaying st /\
     Replay.lastTimestampRef (Replay.animate st ts) = Some ts)
  \/
  (Replay.currentLogIndex (Replay.animate st ts) = Replay.currentLogIndex st /\
   Replay.visibleLogs (Replay.animate st ts) = Replay.visibleLogs st).
Proof.
  unfold Replay.animate.
  destruct (Replay.exceeds_frame_delay _ _); [| by right].
  destruct (Replay.replayData st) as [rd|]; [| by right].
  destruct (Z.ltb_spec (Replay.currentLogIndex st)
              (Z.of_nat (length (Replay.logs rd)) - 1)); [| by right].
  left. exists rd. simpl. repeat split; try done. f_equal. lia.
Qed.

Lemma animate_keeps_data (st : Replay.State) (ts : Q) :
  Replay.replayData (Replay.animate st ts) = Replay.replayData st /\
  Replay.speed (Replay.animate st ts) = Replay.speed st.
Proof.
  unfold Replay.animate.
  destruct (Replay.exceeds_frame_delay _ _); [| done].
  destruct (Replay.replayData st) as [rd|]; [| done].
  by destruct (_ <? _).
Qed.

(** X20.  Whatever the component does (an animation frame, the play
    effect, play, pause, restart, a speed change, any message from the
    replay socket), the index keeps pointing at the last entry shown: the
    number of entries shown is always the index plus one.  A restart
    establishes this from any state. *)
Theorem index_matches_entries_invariant (st st' : Replay.State) :
  replay_step st st' ->
  (index_matches_entries st -> index_matches_entries st') /\
  index_matches_entries (ReplayUi.handleRestart st).
Proof.
  intros Hstep. split; [| done].
  unfold index_matches_entries. intros Hinv.
  destruct Hstep as [st ts | st | st sp | st | st | st | st m]; try done.
  - destruct (animate_cases st ts)
      as [(rd & _ & Hlt & -> & -> & _) | [-> ->]]; [| done].
    unfold Replay.slice0.
    destruct (Z.ltb_spec (Replay.currentLogIndex st + 2) 0); [lia |].
    rewrite length_take. lia.
  - unfold Replay.play_effect.
    by destruct (Replay.isPlaying st), (Replay.replayData st).
  - destruct m as [| e | | err |]; simpl; try done.
    + rewrite length_app. simpl. lia.
    + by destruct (String.eqb err "").
Qed.

(** X21.  Local playback goes through the fetched log in order, one
    entry at a time.  If the entries shown are the first entries of the
    log up to the index, an animation frame leaves it so; the index stays
    or grows by one, never beyond the last entry; and the log and the
    speed are left as they are. *)
Theorem animate_shows_prefix (st : Replay.State) (rd : Replay.ReplayData) (ts : Q) :
  shows_prefix st rd ->
  shows_prefix (Replay.animate st ts) rd /\
  (Replay.currentLogIndex (Replay.animate st ts) = Replay.currentLogIndex st \/
   Replay.currentLogIndex (Replay.animate st ts) = Replay.currentLogIndex st + 1) /\
  Replay.speed (Replay.animate st ts) = Replay.speed st.
Proof.
  intros (Hrd & Hidx & Hvis).
  destruct (animate_keeps_data st ts) as [Hd Hs].
  unfold shows_prefix. rewrite Hd.
  destruct (animate_cases st ts)
    as [(rd' & Hrd' & Hlt & Hi & Hv & _) | [Hi Hv]]; rewrite Hi, Hv.
  - rewrite Hrd in Hrd'. injection Hrd' as <-.
    split; [| split; [by right | done]].
    split; [done |]. split; [lia |].
    unfold Replay.slice0.
    destruct (Z.ltb_spec (Replay.currentLogIndex st + 2) 0); [lia |].
    f_equal. lia.
  - split; [| split; [by left | done]]. by split.
Qed.




Lemma Qfloor_unique (y : Q) (z : Z) :
  (inject_Z z <= y)%Q -> (y < inject_Z (z + 1))%Q -> Qfloor y = z.
Proof.
  intros Hle Hlt. apply Z.le_antisymm.
  - assert (H : Qfloor y < z + 1); [| lia].
    rewrite Zlt_Qlt. eapply Qle_lt_trans; [apply Qfloor_le | exact Hlt].
  - rewrite <- (Qfloor_Z z). by apply Qfloor_resp_le.
Qed.

Lemma Qfloor_div60 (x : Q) : Qfloor (x / 60) = Qfloor x / 60.
Proof.
  destruct x as [a b]. unfold Qdiv, Qmult, Qinv, Qfloor. simpl.
  rewrite Z.mul_1_r, Pos2Z.inj_mul. symmetry. apply Z.div_div; lia.
Qed.

Lemma padStart2_two_digits (m : Z) :
  0 <= m < 60 -> String.length (ReplayUi.padStart2 (Z_to_string m)) = 2%nat.
Proof.
  intros Hm.
  assert (H : forallb (fun n => Nat.eqb (String.length
                          (ReplayUi.padStart2 (Z_to_string (Z.of_nat n)))) 2)
                      (seq 0 60) = true) by (by vm_compute).
  rewrite forallb_forall in H.
  specialize (H (Z.to_nat m)). rewrite Z2Nat.id in H by lia.
  apply Nat.eqb_eq, H, in_seq. lia.
Qed.

(** X25.  formatTime shows whole seconds as minutes, a colon and two
    digits: for a time from 0 up to 2^53 seconds, the text is the number
    of whole minutes, a colon, and the remaining whole seconds padded to
    exactly two characters; fractions of a second are dropped. *)
Theorem formatTime_minutes_seconds (seconds : Q) :
  (0 <= seconds)%Q ->
  (seconds < 9007199254740992)%Q ->
  let total := Qfloor seconds in
  ReplayUi.formatTime seconds =
    Some (Z_to_string (total / 60) +:+ ":" +:+
          ReplayUi.padStart2 (Z_to_string (total mod 60))) /\
  String.length (ReplayUi.padStart2 (Z_to_string (total mod 60))) = 2%nat.
Proof.
  intros Hs Hmax. cbn zeta. split.
  - unfold ReplayUi.formatTime, ReplayUi.in_exact_range.
    assert (H0 : Qle_bool 0 seconds = true) by (by apply Qle_bool_iff).
    assert (H1 : Qle_bool 9007199254740992 seconds = false).
    { destruct (Qle_bool 9007199254740992 seconds) eqn:E; [| done].
      apply Qle_bool_iff in E. exfalso. by apply (Qlt_not_le _ _ Hmax). }
    rewrite H0, H1. cbn [andb negb]. cbv zeta.
    rewrite Qfloor_div60. do 3 f_equal.
    f_equal. f_equal. unfold ReplayUi.js_rem60.
    assert (Hq : Qle_bool 0 (seconds / 60) = true).
    { apply Qle_bool_iff. apply Qle_shift_div_l; [reflexivity |].
      by rewrite Qmult_0_l. }
    rewrite Hq, Qfloor_div60.
    set (total := Qfloor seconds).
    apply Qfloor_unique.
    + rewrite Z.mod_eq by lia.
      pose proof (Qfloor_le seconds) as H. fold total in H.
      unfold Z.sub. rewrite inject_Z_plus, inject_Z_opp, inject_Z_mult.
      change (inject_Z 60) with 60%Q. lra.
    + rewrite Z.mod_eq by lia.
      pose proof (Qlt_floor seconds) as H. fold total in H.
      replace (total - 60 * (total / 60) + 1) with (total + 1 - 60 * (total / 60)) by lia.
      unfold Z.sub. rewrite inject_Z_plus, inject_Z_opp, inject_Z_mult.
      change (inject_Z 60) with 60%Q. lra.
  - apply padStart2_two_digits. apply Z.mod_pos_bound. lia.
Qed.

(* ===================================================================== *)
(** * Further properties: the WebSocket endpoint and reconnection *)
(* ===================================================================== *)

Lemma websocket_endpoint_down (rounds : nat) (tid : string) (w : World) :
  redis_up w = false ->
  websocket_endpoint (S rounds) tid w =
    ([], Some (ConnectionError "Error connecting to redis"), w).
Proof. intros Hup. simpl. unfold redis_get. by rewrite Hup. Qed.

Lemma websocket_endpoint_round (rounds : nat) (tid : string) (w : World) :
  redis_up w = true ->
  websocket_endpoint (S rounds) tid w =
    (let '(sent, e, w2) := websocket_endpoint rounds tid (tick 1 w) in
     (match stored_value w (redis_key tid) with
      | Some v => v :: sent
      | None => sent
      end, e, w2)).
Proof.
  intros Hup. cbn [websocket_endpoint]. by rewrite (redis_get_up _ _ Hup).
Qed.

(** X26.  The status socket is silent about what it cannot find.  For
    an id without a record the handler sends nothing, reports nothing and
    keeps looping, for as many rounds as one cares to watch; when the
    store is unreachable it ends at its first read, again without having
    sent anything. *)
Theorem websocket_endpoint_silent (rounds : nat) (tid : string) (w : World) :
  (redis_up w = true ->
   redis_db w !! redis_key tid = None ->
   websocket_endpoint rounds tid w = ([], None, tick (Z.of_nat rounds) w)) /\
  (redis_up w = false ->
   (0 < rounds)%nat ->
   exists e, websocket_endpoint rounds tid w = ([], Some e, w)).
Proof.
  split.
  - revert w. induction rounds as [|n IH]; intros w Hup Hdb.
    + simpl. unfold tick. rewrite Z.add_0_r. by destruct w.
    + rewrite (websocket_endpoint_round _ _ _ Hup).
      rewrite (IH (tick 1 w)) by done.
      unfold stored_value. rewrite Hdb. unfold tick. simpl.
      do 2 f_equal. lia.
  - intros Hup Hr. destruct rounds as [|n]; [lia |].
    rewrite (websocket_endpoint_down _ _ _ Hup). by eexists.
Qed.

(** X27.  The status socket repeats the stored snapshot once a second
    for as long as the record lives.  Watching, over a reachable store, a
    record that nobody writes to: if it has no expiry, every round sends
    it; if it expires at a given instant, exactly the rounds before that
    instant send it, and the later ones send nothing. *)
Theorem websocket_endpoint_stream (rounds : nat) (tid : string) (w : World)
    (v : TaskResponse) (expiry : option Z) :
  redis_up w = true ->
  redis_db w !! redis_key tid = Some (v, expiry) ->
  let live :=
    match expiry with
    | None => rounds
    | Some e => Nat.min rounds (Z.to_nat (e - clock w))
    end in
  websocket_endpoint rounds tid w =
    (replicate live v, None, tick (Z.of_nat rounds) w).
Proof.
  intros Hup Hdb. cbn zeta. revert w Hup Hdb.
  induction rounds as [|n IH]; intros w Hup Hdb.
  - simpl. unfold tick. rewrite Z.add_0_r.
    destruct w; simpl. by destruct expiry.
  - rewrite (websocket_endpoint_round _ _ _ Hup).
    rewrite (IH (tick 1 w)) by done.
    assert (Htick : tick (Z.of_nat n) (tick 1 w) = tick (Z.of_nat (S n)) w).
    { unfold tick. simpl. f_equal. lia. }
    rewrite Htick. unfold stored_value. rewrite Hdb.
    destruct expiry as [e|]; [| done].
    change (clock (tick 1 w)) with (clock w + 1).
    destruct (Z.ltb_spec (clock w) e) as [Hlt | Hge].
    + replace (Nat.min (S n) (Z.to_nat (e - clock w)))
        with (S (Nat.min n (Z.to_nat (e - (clock w + 1))))) by lia.
      reflexivity.
    + replace (Nat.min n (Z.to_nat (e - (clock w + 1)))) with 0%nat by lia.
      replace (Nat.min (S n) (Z.to_nat (e - clock w))) with 0%nat by lia.
      reflexivity.
Qed.

Lemma getReconnectDelay_small (n : nat) :
  (n < 5)%nat ->
  TaskStatusView.getReconnectDelay n = 1000 * 2 ^ Z.of_nat n /\
  1000 * 2 ^ Z.of_nat n < 30000.
Proof.
  intros Hn. unfold TaskStatusView.getReconnectDelay,
    TaskStatusView.INITIAL_RECONNECT_DELAY, TaskStatusView.MAX_RECONNECT_DELAY.
  assert (2 ^ Z.of_nat n <= 2 ^ 4) by (apply Z.pow_le_mono_r; lia).
  change (2 ^ 4) with 16 in *. lia.
Qed.

(** X28.  The reconnection delay doubles from one second and is capped
    at thirty: it is never below 1000 ms nor above 30000 ms, it never
    shrinks as attempts go on, it is 1000 times 2 to the attempt number for
    the first five attempts, and 30000 from the fifth retry on. *)
Theorem getReconnectDelay_bounds (a b : nat) :
  (a <= b)%nat ->
  1000 <= TaskStatusView.getReconnectDelay a /\
  TaskStatusView.getReconnectDelay a <= TaskStatusView.getReconnectDelay b /\
  TaskStatusView.getReconnectDelay b <= 30000 /\
  ((a < 5)%nat -> TaskStatusView.getReconnectDelay a = 1000 * 2 ^ Z.of_nat a) /\
  ((5 <= b)%nat -> TaskStatusView.getReconnectDelay b = 30000).
Proof.
  intros Hab. unfold TaskStatusView.getReconnectDelay,
    TaskStatusView.INITIAL_RECONNECT_DELAY, TaskStatusView.MAX_RECONNECT_DELAY.
  assert (Hpa : 1 <= 2 ^ Z.of_nat a) by (apply Z.pow_le_mono_r with (b := 0); lia).
  assert (Hmono : 2 ^ Z.of_nat a <= 2 ^ Z.of_nat b) by (apply Z.pow_le_mono_r; lia).
  repeat split; try lia.
  - intros Ha. apply Z.min_l.
    assert (2 ^ Z.of_nat a <= 2 ^ 4) by (apply Z.pow_le_mono_r; lia).
    change (2 ^ 4) with 16 in *. lia.
  - intros Hb. apply Z.min_r.
    assert (2 ^ 5 <= 2 ^ Z.of_nat b) by (apply Z.pow_le_mono_r; lia).
    change (2 ^ 5) with 32 in *. lia.
Qed.

(** X29.  Reconnection gives up after five attempts, before the cap on
    the delay can ever apply.  attemptReconnect schedules a timer exactly
    while fewer than five attempts have been made, each time with a delay
    strictly below the 30000 ms cap and with the counter raised by one, and
    gives up from then on; starting from zero, the attempts wait 1, 2, 4, 8
    and 16 seconds, 31 seconds in all, however many more calls follow. *)
Theorem attemptReconnect_gives_up (n fuel : nat) :
  ((n < 5)%nat ->
   TaskStatusView.attemptReconnect n =
     (TaskStatusView.Scheduled (1000 * 2 ^ Z.of_nat n) (n + 1), (n + 1)%nat) /\
   1000 * 2 ^ Z.of_nat n < TaskStatusView.MAX_RECONNECT_DELAY) /\
  ((5 <= n)%nat ->
   TaskStatusView.attemptReconnect n = (TaskStatusView.GaveUp, n)) /\
  ((5 <= fuel)%nat ->
   TaskStatusView.reconnect_delays fuel 0 = [1000; 2000; 4000; 8000; 16000]).
Proof.
  split; [| split].
  - intros Hn. unfold TaskStatusView.attemptReconnect,
      TaskStatusView.MAX_RECONNECT_ATTEMPTS.
    destruct (Nat.leb_spec 5 n); [lia |]. cbn zeta.
    destruct (getReconnectDelay_small n Hn) as [-> Hlt]. by split.
  - intros Hn. unfold TaskStatusView.attemptReconnect,
      TaskStatusView.MAX_RECONNECT_ATTEMPTS.
    by destruct (Nat.leb_spec 5 n); [| lia].
  - intros Hf. do 5 (destruct fuel as [|fuel]; [lia |]).
    by destruct fuel.
Qed.

(* ===================================================================== *)
(** * The further properties at sample inputs *)
(* ===================================================================== *)

Lemma sample_uuid_inj : Inj (=) (=) (uuid_src sample_world).
Proof.
  intros x y H. simpl in H. injection H as H. by apply pretty_nat_inj in H.
Qed.

Lemma malformed_subtask_refused_witness :
  execute_task "t2" malformed_world =
    (Raise (ValidationError "validation error for Subtask"), malformed_world, []).
Proof.
  apply (malformed_subtask_refused "t2" malformed_world malformed_record
           [ ("id", JStr "a"); ("type", JStr WEB_RESEARCH) ] "status").
  - right. right. left.
  - reflexivity.
  - left.
  - reflexivity.
  - by vm_compute.
Defined.

Lemma submit_then_get_task_status_witness :
  exists response w1 subtasks,
    result_of (submit_task (sample_request "research") sample_world) = Ok response /\
    world_of (submit_task (sample_request "research") sample_world) = w1 /\
    get_task_status (task_id response) w1 =
      (Ok (mkTask (task_id response) PENDING None None 0 subtasks), w1, []) /\
    map type subtasks = planned_types "research" /\
    Forall is_draft subtasks.
Proof.
  destruct (submit_then_get_task_status (sample_request "research") sample_world)
    as (response & w1 & subtasks & Hres & Hw & Hty & Hdr & Hsome & _);
    [reflexivity | discriminate |].
  exists response, w1, subtasks.
  split; [exact Hres |]. split; [exact Hw |].
  split; [| split; [exact Hty | exact Hdr]].
  apply Hsome. discriminate.
Defined.

Lemma submitted_record_expires_witness :
  exists response w1,
    submit_task (sample_request "research") sample_world =
      (Ok response, w1,
       [EvSet (redis_key (task_id response)) response (Some 604800)]) /\
    stored_value (tick 604800 w1) (redis_key (task_id response)) = None.
Proof.
  destruct (submitted_record_expires (sample_request "research") sample_world 604800)
    as (response & w1 & Hsub & _ & Hexp); [reflexivity | discriminate |].
  exists response, w1. split; [exact Hsub |]. apply Hexp. lia.
Defined.

Lemma executed_task_stays_available_witness :
  exists w' evs t,
    task_lifetime (sample_request "research") sample_world = (Ok tt, w', evs) /\
    get_task_status "id-0" (tick 1000000 w') = (Ok t, tick 1000000 w', []) /\
    t_status t = COMPLETED.
Proof.
  destruct (executed_task_stays_available (sample_request "research")
              sample_world 1000000)
    as (w' & evs & t & Hl & Hg & _ & Hs & _); [reflexivity | discriminate |].
  by exists w', evs, t.
Defined.

Lemma execute_task_without_record_witness :
  execute_task "no-such-task" sample_world = (Ok tt, sample_world, []).
Proof.
  apply (execute_task_without_record "no-such-task" sample_world);
    [reflexivity | by vm_compute].
Defined.

Lemma second_run_changes_nothing_witness :
  exists w' evs v w'',
    task_lifetime (sample_request "research") sample_world = (Ok tt, w', evs) /\
    redis_db w' !! redis_key "id-0" = Some (v, None) /\
    execute_task "id-0" w' = (Ok tt, w'', [EvSet (redis_key "id-0") v None]) /\
    redis_db w'' = redis_db w' /\ clock w'' = clock w'.
Proof.
  apply (second_run_changes_nothing (sample_request "research") sample_world);
    [reflexivity | discriminate].
Defined.

Lemma unfinished_subtask_blocks_completion_witness :
  exists w' evs,
    execute_task "t3" stuck_world = (Ok tt, w', evs) /\
    Forall (fun v => r_status v = PENDING /\
                     Subtask_dict failed_subtask ∈ r_subtasks v)
           (stored_snapshots evs).
Proof.
  apply (unfinished_subtask_blocks_completion "t3" stuck_world stuck_record
           [failed_subtask; new_Subtask "b" CONTENT_CREATION PENDING] failed_subtask).
  - reflexivity.
  - by vm_compute.
  - reflexivity.
  - left.
  - discriminate.
  - discriminate.
Defined.

Lemma subtasks_run_one_at_a_time_witness :
  exists w' evs,
    task_lifetime (sample_request "research and write code") sample_world =
      (Ok tt, w', evs) /\
    length (suspended_tasks evs) = length (planned_types "research and write code") /\
    Forall (fun u => length (in_progress_subtasks u) = 1%nat) (suspended_tasks evs) /\
    clock w' = clock sample_world +
               Z.of_nat (length (planned_types "research and write code")).
Proof.
  apply (subtasks_run_one_at_a_time (sample_request "research and write code")
           sample_world); [reflexivity | discriminate].
Defined.

Lemma progress_sequence_witness :
  exists w' evs,
    task_lifetime (sample_request "research and write code") sample_world =
      (Ok tt, w', evs) /\
    length (stored_snapshots evs) =
      (length (planned_types "research and write code") + 2)%nat.
Proof.
  destruct (progress_sequence (sample_request "research and write code") sample_world)
    as (w' & evs & Hl & Hn & _); [reflexivity | discriminate |].
  exists w', evs. split; [exact Hl | exact Hn].
Defined.

Lemma lifetime_touches_own_record_only_witness :
  exists w' evs,
    task_lifetime (sample_request "research") cyclic_world = (Ok tt, w', evs) /\
    redis_db w' !! redis_key "t1" = redis_db cyclic_world !! redis_key "t1".
Proof.
  destruct (lifetime_touches_own_record_only (sample_request "research") cyclic_world)
    as (w' & evs & Hl & Hother & _); [reflexivity | discriminate |].
  exists w', evs. split; [exact Hl |]. apply Hother. discriminate.
Defined.

Lemma plan_task_order_witness :
  exists subtasks,
    result_of (plan_task (sample_request "write, then research") sample_world) =
      Ok subtasks /\
    exists subtasks',
      result_of (plan_task (sample_request "WRITE, THEN RESEARCH") sample_world) =
        Ok subtasks' /\
      map draft_shape subtasks' = map draft_shape subtasks.
Proof.
  destruct (plan_task_order (sample_request "write, then research") sample_world)
    as (subtasks & Hrun & _ & Hcase).
  exists subtasks. split; [exact Hrun |].
  apply (Hcase (sample_request "WRITE, THEN RESEARCH") sample_world).
  reflexivity.
Defined.

Lemma submit_task_ids_fresh_witness :
  exists response subtasks w1,
    submit_task (sample_request "research and write code") sample_world =
      (Ok response, w1,
       [EvSet (redis_key (task_id response)) response (Some 604800)]) /\
    NoDup (task_id response :: map id subtasks).
Proof.
  destruct (submit_task_ids_fresh (sample_request "research and write code")
              sample_world)
    as (response & subtasks & w1 & Hsub & _ & Hnd & _);
    [exact sample_uuid_inj | reflexivity | discriminate |].
  exists response, subtasks, w1. split; [exact Hsub | exact Hnd].
Defined.

Lemma submit_task_store_down_witness :
  exists d w',
    submit_task (sample_request "research") sample_world_down =
      (Raise (HTTPException 500 d), w', []) /\
    redis_db w' = redis_db sample_world_down.
Proof.
  destruct (submit_task_store_down (sample_request "research") sample_world_down)
    as (d & w' & a & Hsub & Hdb & _); [reflexivity | discriminate |].
  exists d, w'. split; [exact Hsub | exact Hdb].
Defined.

Lemma handleApiError_message_nonempty_witness :
  ApiAny.handleApiError (ApiAny.AxiosWithResponse 404 ApiAny.BodyNull)
    "Failed to get task status" = None /\
  exists s,
    ApiAny.handleApiError
      (ApiAny.AxiosWithResponse 404
         (ApiAny.BodyObject (ApiAny.VStr "Task not found") ApiAny.VUndefined))
      "Failed to get task status" =
      Some (ApiAny.mkErrorResponse (ApiAny.VStr s) Api.UNKNOWN_ERROR (Some 404) true) /\
    s <> "".
Proof.
  split.
  - destruct (handleApiError_message_nonempty
                (ApiAny.AxiosWithResponse 404 ApiAny.BodyNull)
                "Failed to get task status") as (_ & Hthrows & _); [discriminate |].
    apply Hthrows. exists 404, ApiAny.BodyNull. split; [reflexivity | by left].
  - destruct (handleApiError_message_nonempty
                (ApiAny.AxiosWithResponse 404
                   (ApiAny.BodyObject (ApiAny.VStr "Task not found") ApiAny.VUndefined))
                "Failed to get task status") as (_ & _ & Hstr); [discriminate |].
    apply (Hstr (Api.AxiosWithResponse 404
                   (Api.mkErrorData (Some "Task not found") None))).
    reflexivity.
Defined.

Lemma handleApiError_by_response_witness :
  ApiAny.handleApiError (ApiAny.AxiosWithResponse 500 ApiAny.BodyNull) "" = None /\
  exists e,
    ApiAny.handleApiError (ApiAny.AxiosWithResponse 500 ApiAny.BodyOther) "" = Some e.
Proof.
  split.
  - apply (handleApiError_by_response 500 ApiAny.BodyNull ""). reflexivity.
  - apply (handleApiError_by_response 500 ApiAny.BodyOther ""); [discriminate | lia].
Defined.

Lemma handleApiResponse_outcomes_witness :
  exists e,
    ApiFetch.handleApiResponse sample_not_found = inl (ApiFetch.ThrownApiError e) /\
    Api.statusCode e = Some 404 /\
    Api.message e <> "" /\
    Api.type e = Api.UNKNOWN_ERROR /\
    Api.retryable e = false.
Proof.
  apply (handleApiResponse_outcomes sample_not_found). reflexivity.
Defined.

Lemma handlers_agree_on_retry_witness :
  exists e,
    ApiFetch.handleApiResponse sample_not_found = inl (ApiFetch.ThrownApiError e) /\
    Api.retryable e = false /\
    exists a,
      ApiAny.handleApiError
        (ApiAny.AxiosWithResponse 404
           (ApiAny.BodyObject (ApiAny.VStr "Not Found") ApiAny.VUndefined))
        "Failed" = Some a /\
      ApiAny.retryable a = true.
Proof.
  destruct (handlers_agree_on_retry sample_not_found
              (ApiAny.BodyObject (ApiAny.VStr "Not Found") ApiAny.VUndefined)
              "Failed")
    as (e & He & Hcmp); [reflexivity |].
  exists e. split; [exact He |].
  change (ApiFetch.status sample_not_found) with 404 in Hcmp.
  destruct (ApiAny.handleApiError
              (ApiAny.AxiosWithResponse 404
                 (ApiAny.BodyObject (ApiAny.VStr "Not Found") ApiAny.VUndefined))
              "Failed") as [a|]; [| by destruct Hcmp].
  destruct Hcmp as [Hiff Hdis].
  destruct Hdis as [Ha Hf].
  - intros Heq. apply Hiff in Heq. lia.
  - split; [exact Hf |]. by exists a.
Defined.

Lemma getTaskHistory_hides_errors_witness :
  ApiFetch.getTaskHistory (ApiFetch.FetchResponse sample_not_found) =
    inr (ApiFetch.mkHistory None (Some []) (Some "error")
           (Some "Unknown error in response handling")).
Proof.
  destruct (getTaskHistory_hides_errors (ApiFetch.FetchResponse sample_not_found))
    as (Hrejected & _).
  apply (Hrejected sample_not_found); reflexivity.
Defined.

Lemma index_matches_entries_invariant_witness :
  index_matches_entries (Replay.animate sample_replay 1200).
Proof.
  apply (index_matches_entries_invariant sample_replay
           (Replay.animate sample_replay 1200)).
  - apply step_animate.
  - reflexivity.
Defined.

Lemma animate_shows_prefix_witness :
  shows_prefix (Replay.animate sample_replay 1200) sample_replay_data.
Proof.
  apply (animate_shows_prefix sample_replay sample_replay_data 1200).
  split; [reflexivity |]. split; [by vm_compute | reflexivity].
Defined.




Lemma formatTime_minutes_seconds_witness :
  ReplayUi.formatTime (125 # 2) =
    Some (Z_to_string (Qfloor (125 # 2) / 60) +:+ ":" +:+
          ReplayUi.padStart2 (Z_to_string (Qfloor (125 # 2) mod 60))).
Proof.
  apply (formatTime_minutes_seconds (125 # 2)); by vm_compute.
Defined.

Lemma websocket_endpoint_silent_witness :
  websocket_endpoint 3 "no-such-task" sample_world = ([], None, tick 3 sample_world).
Proof.
  apply (websocket_endpoint_silent 3 "no-such-task" sample_world);
    [reflexivity | by vm_compute].
Defined.

Lemma websocket_endpoint_stream_witness :
  websocket_endpoint 3 "t1" cyclic_world =
    (replicate 3 (mkTaskResponse "t1" PENDING None None 0 cyclic_plan), None,
     tick 3 cyclic_world).
Proof.
  apply (websocket_endpoint_stream 3 "t1" cyclic_world
           (mkTaskResponse "t1" PENDING None None 0 cyclic_plan) None);
    [reflexivity | by vm_compute].
Defined.

Lemma getReconnectDelay_bounds_witness :
  TaskStatusView.getReconnectDelay 0 <= TaskStatusView.getReconnectDelay 3.
Proof.
  apply (getReconnectDelay_bounds 0 3). lia.
Defined.

Lemma attemptReconnect_gives_up_witness :
  TaskStatusView.attemptReconnect 7 = (TaskStatusView.GaveUp, 7%nat) /\
  TaskStatusView.reconnect_delays 9 0 = [1000; 2000; 4000; 8000; 16000].
Proof.
  split.
  - apply (attemptReconnect_gives_up 7 9). lia.
  - apply (attemptReconnect_gives_up 7 9). lia.
Defined.

(** X30.  The fetch based calls resolve on success only, and throw two
    kinds of values.  deleteTask, getTaskLogs and getTaskReplay resolve
    exactly when the server answered with a status from 200 to 299 and a
    body that parses, and then with that body; a fetch that got no answer
    is thrown again as the Error it was, which has no retryable member,
    while an answer outside 200 to 299 is thrown as a structured error.
    checkApiHealth never throws: it says healthy exactly for an answer
    from 200 to 299 whose body has the status member "ok". *)
Theorem fetch_calls_resolve_on_success_only {T} (f : ApiFetch.Fetched T) (data : T)
    (h : ApiFetch.Fetched ApiFetch.HealthData) :
  (ApiFetch.deleteTask f = inr data <->
   exists r, f = ApiFetch.FetchResponse r /\ ApiFetch.ok r = true /\
             ApiFetch.json r = Some data) /\
  ApiFetch.getTaskLogs f = ApiFetch.deleteTask f /\
  ApiFetch.getTaskReplay f = ApiFetch.deleteTask f /\
  (forall m, f = ApiFetch.FetchFailed m ->
             ApiFetch.deleteTask f = inl (ApiFetch.ThrownError m)) /\
  (forall r, f = ApiFetch.FetchResponse r -> ApiFetch.ok r = false ->
             exists e, ApiFetch.deleteTask f = inl (ApiFetch.ThrownApiError e) /\
                       Api.statusCode e = Some (ApiFetch.status r)) /\
  (ApiFetch.checkApiHealth h = true <->
   exists r d, h = ApiFetch.FetchResponse r /\ ApiFetch.ok r = true /\
               ApiFetch.json r = Some d /\
               ApiFetch.health_status d = Some "ok").
Proof.
  repeat split.
  - destruct f as [m | r]; [discriminate |].
    unfold ApiFetch.deleteTask, ApiFetch.fetch_and_handle, ApiFetch.handleApiResponse.
    intros Hres. exists r. split; [reflexivity |].
    destruct (ApiFetch.ok r); [| discriminate].
    split; [reflexivity |].
    destruct (ApiFetch.json r); [| discriminate].
    simpl in Hres. congruence.
  - intros (r & -> & Hok & Hjs).
    unfold ApiFetch.deleteTask, ApiFetch.fetch_and_handle, ApiFetch.handleApiResponse.
    by rewrite Hok, Hjs.
  - by intros m ->.
  - intros r -> Hok.
    eexists. split; [exact (handleApiResponse_rejects r Hok) | reflexivity].
  - destruct h as [m | r]; [discriminate |].
    unfold ApiFetch.checkApiHealth. intros Hh.
    destruct (ApiFetch.ok r) eqn:Hok; [| discriminate].
    destruct (ApiFetch.json r) as [d |] eqn:Hjs; [| discriminate].
    simpl in Hh.
    destruct (ApiFetch.health_status d) as [s |] eqn:Hs; [| discriminate].
    apply String.eqb_eq in Hh. subst s.
    by exists r, d.
  - intros (r & d & -> & Hok & Hjs & Hs).
    unfold ApiFetch.checkApiHealth. by rewrite Hok, Hjs, Hs.
Qed.

Lemma fetch_calls_resolve_on_success_only_witness :
  ApiFetch.deleteTask
    (ApiFetch.FetchFailed (T := ApiFetch.HistoryData) "Failed to fetch") =
    inl (ApiFetch.ThrownError "Failed to fetch") /\
  exists e,
    ApiFetch.deleteTask (ApiFetch.FetchResponse sample_not_found) =
      inl (ApiFetch.ThrownApiError e) /\
    Api.statusCode e = Some 404.
Proof.
  split.
  - apply (fetch_calls_resolve_on_success_only
             (ApiFetch.FetchFailed (T := ApiFetch.HistoryData) "Failed to fetch")
             (ApiFetch.mkHistoryData "ok" [])
             (ApiFetch.FetchFailed "Failed to fetch")).
    reflexivity.
  - destruct (fetch_calls_resolve_on_success_only
                (ApiFetch.FetchResponse sample_not_found)
                (ApiFetch.mkHistoryData "ok" [])
                (ApiFetch.FetchFailed "Failed to fetch"))
      as (_ & _ & _ & _ & Hrej & _).
    exact (Hrej sample_not_found eq_refl eq_refl).
Defined.
